(** * Price synchronisation core: a shallow embedding and its properties

  The development follows the TypeScript sources component by component:

  - [PriceUpdateModal]     pricing rule evaluator, price-change classifier,
                           article reconciler and display sort
                           (src/components/PriceUpdateModal.tsx);
  - [LoadingProgress]      the batch sync orchestrator (LoadingProgress.tsx);
  - [SandboxPage]          the sandbox quota guard (src/pages/SandboxPage.tsx);
  - [KaspiApi]             the marketplace adapter (src/lib/kaspi-api.ts);
  - [ControlPanel]         the review gate after a download run;
  - [KaspiPriceListDialog] the CSV export.

  Conventions of the embedding.  A JavaScript [number] is an exact rational
  ([Q]) and its arithmetic is that of the rationals; [Binary64] repeats the
  pricing rule with the rounding of products and sums written out, for what
  depends on it.  The infinities are outside the model, and so is NaN, but
  for the comparator of the display sort, whose NaN is [None].
  [null]/[undefined] is [None].  A JavaScript string is a [string] of UTF-8 bytes.  React state
  is a record, and a handler is a function from state to state; [toast]
  calls are appended to a log kept in the state. *)

From Stdlib Require Import QArith Qround Ascii Lqa.
From stdpp Require Import gmap strings list fin_maps pretty sorting.

Open Scope string_scope.

(** ** JavaScript values *)

Module JS.

(** [ToBoolean] on a [number | null]: null, [0] are falsy. *)
Definition truthy_number (x : option Q) : bool :=
  match x with
  | None => false
  | Some q => negb (Qeq_bool q 0)
  end.

(** [ToBoolean] on a [string | null]: null and the empty string are falsy. *)
Definition truthy_string (x : option string) : bool :=
  match x with
  | None => false
  | Some s => negb (String.eqb s "")
  end.

(** [a || null] and [a || b] where [a : string | null | undefined]. *)
Definition or_null (a : option string) : option string :=
  if truthy_string a then a else None.
Definition or_string (a : option string) (b : string) : string :=
  match a with
  | Some s => if truthy_string a then s else b
  | None => b
  end.

(** [a > b] and [a < b] on numbers. *)
Definition gt (a b : Q) : bool :=
  match (a ?= b)%Q with Gt => true | _ => false end.
Definition lt (a b : Q) : bool :=
  match (a ?= b)%Q with Lt => true | _ => false end.

(** [Array.prototype.sort(compareFn)]: the language fixes the result for a
    consistent comparator, a stable sort that puts [a] after [b] exactly when
    [compareFn(a, b) > 0]; it is modelled as stable insertion. *)
Fixpoint sort_insert {A} (compareFn : A -> A -> Z) (x : A) (l : list A) : list A :=
  match l with
  | [] => [x]
  | y :: l' =>
      if (0 <? compareFn x y)%Z then y :: sort_insert compareFn x l'
      else x :: y :: l'
  end.

Definition sort {A} (compareFn : A -> A -> Z) (l : list A) : list A :=
  foldr (sort_insert compareFn) [] l.

(** An array index or length used as a number. *)
Definition of_nat (n : nat) : Q := inject_Z (Z.of_nat n).

(** A value caught by [catch (error)]: an [Error] object with its message,
    or anything else. *)
Inductive Thrown :=
  | ErrorObject (message : string)
  | OtherValue.

End JS.

(** ** PriceUpdateModal.tsx *)

Module PriceUpdateModal.

(** [interface Product], with the row's foreign keys as the store has them. *)
Record Product := mkProduct {
  id : string;
  supplier_id : option string;
  marketplace_id : option string;
  name_supplier : string;
  name_marketplace : option string;
  supplier_article : string;
  marketplace_article : option string;
  current_price : option Q;
  new_price : option Q;
  price_status : option string;
  pricing_action : option string;
  pricing_value : option Q;
  display_name : option string
}.

(** [calculateNewPrice], lines 214-225. *)
Definition calculateNewPrice (currentPrice : option Q) (action : string) (value : Q)
  : option Q :=
  if negb (JS.truthy_number currentPrice) then None
  else
    match currentPrice with
    | None => None
    | Some p =>
        if String.eqb action "multiply" then Some (p * value)%Q
        else if String.eqb action "add" then Some (p + value)%Q
        else Some p
    end.

(** The conditional that fills [price_status] in [applyGlobalPricing],
    lines 250-253: [newPrice && current_price ? (...) : 'unchanged']. *)
Definition price_status_of (current_price newPrice : option Q) : string :=
  if JS.truthy_number newPrice && JS.truthy_number current_price then
    match newPrice, current_price with
    | Some n, Some c =>
        if JS.gt n c then "increased"
        else if JS.lt n c then "decreased"
        else "unchanged"
    | _, _ => "unchanged"
    end
  else "unchanged".

(** One entry of [updates] in [applyGlobalPricing], lines 243-254. *)
Record Update := mkUpdate {
  u_id : string;
  u_new_price : option Q;
  u_pricing_action : string;
  u_pricing_value : Q;
  u_price_status : string
}.

Definition applyGlobalPricing_update
    (product : Product) (globalPricingAction : string) (globalPricingValue : Q)
  : Update :=
  let newPrice :=
    calculateNewPrice (current_price product) globalPricingAction globalPricingValue in
  {| u_id := id product;
     u_new_price := newPrice;
     u_pricing_action := globalPricingAction;
     u_pricing_value := globalPricingValue;
     u_price_status := price_status_of (current_price product) newPrice |}.

(** The article map of [fetchProducts], lines 153-160: a [Map] filled by
    [forEach] over the marketplace rows, skipping rows without an article. *)
Definition articleMapping_set (m : gmap string Product) (mp : Product)
  : gmap string Product :=
  match marketplace_article mp with
  | Some article =>
      if JS.truthy_string (Some article) then <[article := mp]> m else m
  | None => m
  end.

Definition articleMapping (marketplaceProducts : option (list Product))
  : gmap string Product :=
  match marketplaceProducts with
  | Some rows => foldl articleMapping_set ∅ rows
  | None => ∅
  end.

(** The body of the [map] callback, lines 163-173. *)
Definition enrich (mapping : gmap string Product) (supplierProduct : Product)
  : Product :=
  let matchedMarketplaceProduct := mapping !! supplier_article supplierProduct in
  {| id := id supplierProduct;
     supplier_id := supplier_id supplierProduct;
     marketplace_id := marketplace_id supplierProduct;
     name_supplier := name_supplier supplierProduct;
     name_marketplace :=
       JS.or_null (matchedMarketplaceProduct ≫= name_marketplace);
     supplier_article := supplier_article supplierProduct;
     marketplace_article :=
       JS.or_null (matchedMarketplaceProduct ≫= marketplace_article);
     current_price := current_price supplierProduct;
     new_price := new_price supplierProduct;
     price_status := price_status supplierProduct;
     pricing_action := pricing_action supplierProduct;
     pricing_value := pricing_value supplierProduct;
     display_name :=
       Some (JS.or_string (matchedMarketplaceProduct ≫= name_marketplace)
                          (name_supplier supplierProduct)) |}.

Definition enrichedProducts
    (supplierProducts : list Product) (marketplaceProducts : option (list Product))
  : list Product :=
  map (enrich (articleMapping marketplaceProducts)) supplierProducts.

(** The display sort, lines 176-181.  [statusOrder] is an object literal
    with four members of its own. *)
Definition statusOrder : gmap string Z :=
  <["increased" := 0%Z]> (<["decreased" := 1%Z]> (<["unchanged" := 2%Z]>
    (<["missing" := 3%Z]> ∅))).

(** Reading an object with [object[key]] also finds the members it inherits
    from [Object.prototype]: eleven functions and, under __proto__, the
    prototype itself. *)
Definition Object_prototype : list string :=
  ["constructor"; "hasOwnProperty"; "isPrototypeOf"; "propertyIsEnumerable";
   "toLocaleString"; "toString"; "valueOf"; "__proto__";
   "__defineGetter__"; "__defineSetter__"; "__lookupGetter__"; "__lookupSetter__"].

(** A status that names an inherited member; a null status reads the key
    "null". *)
Definition inherited (status : option string) : bool :=
  existsb (String.eqb (default "null" status)) Object_prototype.

(** What [statusOrder[status] ?? 4] evaluates to: a number, or an inherited
    function or object, which is not nullish and so is not replaced by 4. *)
Inductive Order :=
  | Number (n : Z)
  | Inherited.

#[global] Instance Order_eq_dec : EqDecision Order.
Proof. solve_decision. Defined.

Definition order_of (status : option string) : Order :=
  match statusOrder !! default "null" status with
  | Some n => Number n
  | None => if inherited status then Inherited else Number 4%Z
  end.

(** [aOrder - bOrder]: the difference of two numbers, and NaN ([None]) when
    one of the two is a function or an object. *)
Definition compareFn (a b : Product) : option Z :=
  match order_of (price_status a), order_of (price_status b) with
  | Number aOrder, Number bOrder => Some (aOrder - bOrder)%Z
  | _, _ => None
  end.

(** [sort] takes a NaN of the comparator as +0.  A comparator that returns
    NaN is not a consistent one, and the language then leaves the order to
    the engine; the model is the stable result the engines give. *)
Definition sortedProducts (enriched : list Product) : list Product :=
  JS.sort (fun a b => default 0%Z (compareFn a b)) enriched.

(** What [fetchProducts] hands to [setProducts], lines 133-183. *)
Definition fetchProducts
    (supplierProducts : option (list Product))
    (marketplaceProducts : option (list Product)) : list Product :=
  match supplierProducts with
  | None | Some [] => []
  | Some rows => sortedProducts (enrichedProducts rows marketplaceProducts)
  end.

(** The reconciler's lookup in the words of the specification: the row that
    wins for the key [k] is the last marketplace row carrying the non-empty
    article [k]. *)
Fixpoint spec_last_write_wins (k : string) (rows : list Product) : option Product :=
  match rows with
  | [] => None
  | mp :: rest =>
      match spec_last_write_wins k rest with
      | Some winner => Some winner
      | None =>
          if bool_decide (marketplace_article mp = Some k ∧ k ≠ "")
          then Some mp else None
      end
  end.

(** The display name in the words of the specification. *)
Definition spec_display_name (matched : option Product) (supplierProduct : Product)
  : string :=
  match matched with
  | Some mp =>
      match name_marketplace mp with
      | Some n => if bool_decide (n = "") then name_supplier supplierProduct else n
      | None => name_supplier supplierProduct
      end
  | None => name_supplier supplierProduct
  end.

End PriceUpdateModal.

(** ** The persistence store as [loadSupplierData] uses it *)

Module Supabase.

(** The row [loadSupplierData] inserts into [products]. *)
Record ProductInsert := mkProductInsert {
  supplier_id : string;
  supplier_article : string;
  name_supplier : string;
  current_price : Q;
  pricing_action : string;
  pricing_value : Q
}.

(** The [error] member of an insert's result. *)
Record PostgrestError := mkPostgrestError { message : string }.

(** [supabase.from('products').insert(row)] resolves to [{ error }]; the
    store behind it is any state machine. *)
Class Client := {
  Store : Type;
  insert : Store -> ProductInsert -> Store * option PostgrestError
}.

End Supabase.

(** ** LoadingProgress.tsx *)

Module LoadingProgress.

Inductive RunType := download | upload.

Inductive Status :=
  | StatusPending
  | StatusProcessing
  | StatusCompleted
  | StatusError.

(** [interface ProcessStep]. *)
Record ProcessStep := mkProcessStep {
  id : string;
  name : string;
  status : Status;
  progress : Q;
  error : option string
}.

Definition with_status (s : Status) (step : ProcessStep) : ProcessStep :=
  {| id := id step; name := name step; status := s;
     progress := progress step; error := error step |}.
Definition with_progress (p : Q) (step : ProcessStep) : ProcessStep :=
  {| id := id step; name := name step; status := status step;
     progress := p; error := error step |}.
Definition with_error (e : string) (step : ProcessStep) : ProcessStep :=
  {| id := id step; name := name step; status := status step;
     progress := progress step; error := Some e |}.

(** [prev.map((step, index) => index === i ? f(step) : step)]. *)
Definition update_step (i : nat) (f : ProcessStep -> ProcessStep)
    (prev : list ProcessStep) : list ProcessStep :=
  imap (fun index step => if Nat.eqb index i then f step else step) prev.

Record SampleProduct := mkSample {
  article : string;
  sample_name : string;
  price : Q
}.

Definition sampleProducts : list SampleProduct :=
  [ mkSample "ART001" "Товар 1" 1000;
    mkSample "ART002" "Товар 2" 1500;
    mkSample "ART003" "Товар 3" 2000;
    mkSample "ART004" "Товар 4" 2500;
    mkSample "ART005" "Товар 5" 3000 ].

Section Component.
Context `{db : Supabase.Client}.

(** The component's React state ([steps], [overallProgress], [isCompleted]),
    the store it writes to, and the number of times the [onComplete] prop has
    been called. *)
Record World := mkWorld {
  steps : list ProcessStep;
  overallProgress : Q;
  isCompleted : bool;
  store : Supabase.Store;
  onComplete_calls : nat
}.

Definition setSteps (f : list ProcessStep -> list ProcessStep) (w : World) : World :=
  {| steps := f (steps w); overallProgress := overallProgress w;
     isCompleted := isCompleted w; store := store w;
     onComplete_calls := onComplete_calls w |}.
Definition setOverallProgress (p : Q) (w : World) : World :=
  {| steps := steps w; overallProgress := p;
     isCompleted := isCompleted w; store := store w;
     onComplete_calls := onComplete_calls w |}.
Definition setIsCompleted (b : bool) (w : World) : World :=
  {| steps := steps w; overallProgress := overallProgress w;
     isCompleted := b; store := store w;
     onComplete_calls := onComplete_calls w |}.
Definition setStore (s : Supabase.Store) (w : World) : World :=
  {| steps := steps w; overallProgress := overallProgress w;
     isCompleted := isCompleted w; store := s;
     onComplete_calls := onComplete_calls w |}.
(** [onComplete?.()]. *)
Definition call_onComplete (onComplete : bool) (w : World) : World :=
  if onComplete then
    {| steps := steps w; overallProgress := overallProgress w;
       isCompleted := isCompleted w; store := store w;
       onComplete_calls := S (onComplete_calls w) |}
  else w.

(** The loop of [loadSupplierData], lines 515-540, from index [j] on; the
    result is the value thrown, if any. *)
Fixpoint loadSupplierData_loop (supplierId : string) (stepIndex : nat)
    (j : nat) (rest : list SampleProduct) (w : World) : World * option JS.Thrown :=
  match rest with
  | [] => (w, None)
  | product :: rest' =>
      let progress :=
        ((JS.of_nat (j + 1) / JS.of_nat (length sampleProducts)) * 100)%Q in
      let w1 := setSteps (update_step stepIndex (with_progress progress)) w in
      let '(store', error) :=
        Supabase.insert (store w1)
          (Supabase.mkProductInsert supplierId (article product)
             (sample_name product) (price product) "multiply" 1) in
      let w2 := setStore store' w1 in
      match error with
      | Some e =>
          (w2, Some (JS.ErrorObject
                       ("Ошибка добавления товара " ++ sample_name product
                        ++ ": " ++ Supabase.message e)))
      | None => loadSupplierData_loop supplierId stepIndex (S j) rest' w2
      end
  end.

Definition loadSupplierData (supplierId : string) (stepIndex : nat) (w : World)
  : World * option JS.Thrown :=
  loadSupplierData_loop supplierId stepIndex 0 sampleProducts w.

(** [uploadToMarketplace], lines 543-552: [j] runs over 0, 20, ..., 100. *)
Definition uploadToMarketplace (marketplaceId : string) (stepIndex : nat) (w : World)
  : World * option JS.Thrown :=
  (foldl (fun w' (j : Z) =>
            setSteps (update_step stepIndex (with_progress (inject_Z j))) w')
         w [0; 20; 40; 60; 80; 100]%Z,
   None).

(** The [try] block of [startProcess]. *)
Definition work (type : RunType) (currentStep : ProcessStep) (i : nat) (w : World)
  : World * option JS.Thrown :=
  match type with
  | download => loadSupplierData (id currentStep) i w
  | upload => uploadToMarketplace (id currentStep) i w
  end.

(** [error instanceof Error ? error.message : "Произошла ошибка"]. *)
Definition error_text (e : JS.Thrown) : string :=
  match e with
  | JS.ErrorObject message => message
  | JS.OtherValue => "Произошла ошибка"
  end.

(** The state in which the work of step [i] starts. *)
Definition begin_step (i : nat) (w : World) : World :=
  setSteps (update_step i (with_status StatusProcessing)) w.

(** One turn of the [for] loop of [startProcess], lines 462-499. *)
Definition iteration (type : RunType) (total : nat) (i : nat)
    (currentStep : ProcessStep) (w : World) : World :=
  let '(w2, thrown) := work type currentStep i (begin_step i w) in
  let w3 :=
    match thrown with
    | None =>
        setSteps (update_step i (fun step =>
                    with_progress 100 (with_status StatusCompleted step))) w2
    | Some e =>
        setSteps (update_step i (fun step =>
                    with_error (error_text e)
                      (with_progress 100 (with_status StatusError step)))) w2
    end in
  setOverallProgress ((JS.of_nat (i + 1) / JS.of_nat total) * 100)%Q w3.

Fixpoint startProcess_loop (type : RunType) (total : nat) (i : nat)
    (rest : list ProcessStep) (w : World) : World :=
  match rest with
  | [] => w
  | currentStep :: rest' =>
      startProcess_loop type total (S i) rest'
        (iteration type total i currentStep w)
  end.

(** [startProcess], lines 461-503. *)
Definition startProcess (type : RunType) (onComplete : bool)
    (initialSteps : list ProcessStep) (w : World) : World :=
  let w1 := startProcess_loop type (length initialSteps) 0 initialSteps w in
  call_onComplete onComplete (setIsCompleted true w1).

(** The steps built by the effect, lines 434-457. *)
Definition initialSteps (type : RunType) (suppliers marketplaces : list string)
  : list ProcessStep :=
  match type with
  | download =>
      map (fun supplier =>
             mkProcessStep supplier ("Загрузка цен от поставщика " ++ supplier)
               StatusPending 0 None) suppliers
  | upload =>
      map (fun marketplace =>
             mkProcessStep marketplace ("Выгрузка цен в маркетплейс " ++ marketplace)
               StatusPending 0 None) marketplaces
  end.

(** The component right after mounting: empty [steps], progress 0. *)
Definition mounted (s : Supabase.Store) : World :=
  mkWorld [] 0 false s 0.

(** The effect, lines 434-459: [setSteps(initialSteps); startProcess(initialSteps)]. *)
Definition run (type : RunType) (suppliers marketplaces : list string)
    (onComplete : bool) (s : Supabase.Store) : World :=
  let initial := initialSteps type suppliers marketplaces in
  startProcess type onComplete initial (setSteps (fun _ => initial) (mounted s)).

(** The run cut after its first [k] steps. *)
Definition after_steps (type : RunType) (suppliers marketplaces : list string)
    (k : nat) (s : Supabase.Store) : World :=
  let initial := initialSteps type suppliers marketplaces in
  startProcess_loop type (length initial) 0 (take k initial)
    (setSteps (fun _ => initial) (mounted s)).

Definition is_terminal (step : ProcessStep) : bool :=
  match status step with
  | StatusCompleted | StatusError => true
  | _ => false
  end.

(** The number of steps that have reached a terminal status. *)
Definition completedSteps (w : World) : nat :=
  length (List.filter is_terminal (steps w)).

(** Two worlds that differ at most in the step [i], whose identity, status
    and error text agree. *)
Definition same_but_progress (i : nat) (w w' : World) : Prop :=
  length (steps w') = length (steps w) /\
  (forall j, j <> i -> steps w' !! j = steps w !! j) /\
  (forall x, steps w !! i = Some x ->
     exists x', steps w' !! i = Some x' /\ id x' = id x /\ name x' = name x /\
           status x' = status x /\ error x' = error x) /\
  overallProgress w' = overallProgress w /\
  isCompleted w' = isCompleted w /\
  onComplete_calls w' = onComplete_calls w.

End Component.

End LoadingProgress.

(** ** Toasts *)

Record Toast := mkToast {
  toast_title : string;
  toast_description : string;
  toast_destructive : bool
}.

(** ** SandboxPage.tsx *)

Module SandboxPage.

Record TestRequests := mkTestRequests { used : Z; max : Z }.

Record State := mkState {
  testing : bool;
  showProgress : bool;
  testType : LoadingProgress.RunType;
  testRequests : TestRequests;
  toasts : list Toast
}.

(** The [useState] initial values, lines 11-14. *)
Definition initial : State :=
  mkState false false LoadingProgress.download (mkTestRequests 0 100) [].

(** [runTest], lines 18-34. *)
Definition runTest (type : LoadingProgress.RunType) (st : State) : State :=
  if (max (testRequests st) <=? used (testRequests st))%Z then
    mkState (testing st) (showProgress st) (testType st) (testRequests st)
      (toasts st ++ [mkToast "Лимит исчерпан" "Достигнут лимит тестовых запросов" true])
  else
    mkState true true type
      (mkTestRequests (used (testRequests st) + 1) (max (testRequests st)))
      (toasts st).

(** [resetTestCounter], lines 36-42. *)
Definition resetTestCounter (st : State) : State :=
  mkState (testing st) (showProgress st) (testType st)
    (mkTestRequests 0 (max (testRequests st)))
    (toasts st ++ [mkToast "Успешно" "Счетчик тестовых запросов сброшен" false]).

(** The [onCancel] and [onComplete] props handed to [LoadingProgress],
    lines 52-63. *)
Definition onCancel (st : State) : State :=
  mkState false false (testType st) (testRequests st) (toasts st).

Definition onComplete (st : State) : State :=
  mkState false false (testType st) (testRequests st)
    (toasts st ++ [mkToast "Тест завершен" "Тестирование API прошло успешно" false]).

(** The orchestrator is mounted exactly while [showProgress] holds, line 45. *)
Definition run_mounted (st : State) : bool := showProgress st.

Inductive Event :=
  | RunTest (type : LoadingProgress.RunType)
  | ResetTestCounter
  | OnCancel
  | OnComplete.

Definition handle (st : State) (ev : Event) : State :=
  match ev with
  | RunTest type => runTest type st
  | ResetTestCounter => resetTestCounter st
  | OnCancel => onCancel st
  | OnComplete => onComplete st
  end.

Definition handle_all (st : State) (evs : list Event) : State :=
  foldl handle st evs.

(** The invariant of the counter. *)
Definition within_quota (st : State) : Prop :=
  (0 <= used (testRequests st) <= max (testRequests st))%Z.

End SandboxPage.

(** ** kaspi-api.ts *)

Module KaspiApi.

Record Image := mkImage { url : string }.
Record AttributeValue := mkAttributeValue { code : string; value : string }.

(** [type Product = z.infer<typeof ProductSchema>]. *)
Record Product := mkProduct {
  sku : string;
  title : string;
  brand : string;
  category : string;
  description : string;
  images : list Image;
  attributes : list AttributeValue
}.

Record Request := mkRequest {
  request_url : string;
  request_method : string;
  request_headers : list (string * string);
  request_body : option string
}.

Record UploadResult := mkUploadResult { uploadCode : string; upload_status : string }.

Record Response := mkResponse {
  ok : bool;
  response_status : N;
  response_text : string;
  response_json : UploadResult
}.

(** What the adapter takes from its platform: zod's [string().url()] check,
    [JSON.stringify] and [fetch]. *)
Class Platform := {
  is_url : string -> bool;
  JSON_stringify : Product -> string;
  fetch : Request -> Response
}.

(** How a call ends: a value, a [ZodError] with its issues, or an [Error]. *)
Inductive Outcome (A : Type) :=
  | Returned (a : A)
  | ThrewZodError (issues : list string)
  | ThrewError (message : string).
Arguments Returned {A} a.
Arguments ThrewZodError {A} issues.
Arguments ThrewError {A} message.

Section Client.
Context `{platform : Platform}.

Definition min1 (field message : string) : list string :=
  if String.eqb field "" then [message] else [].

(** The issues [ProductSchema] raises, lines 32-45; the attributes are
    (code, value) pairs of strings by their type. *)
Definition ProductSchema_issues (product : Product) : list string :=
  (min1 (sku product) "SKU обязателен"
   ++ min1 (title product) "Название товара обязательно"
   ++ min1 (brand product) "Бренд обязателен"
   ++ min1 (category product) "Категория обязательна"
   ++ min1 (description product) "Описание обязательно"
   ++ flat_map (fun image =>
                  if is_url (url image) then []
                  else ["Некорректный URL изображения"])
        (images product))%list.

(** [ProductSchema.parse]. *)
Definition ProductSchema_parse (product : Product) : Outcome Product :=
  match ProductSchema_issues product with
  | [] => Returned product
  | issues => ThrewZodError issues
  end.

Definition baseUrl : string := "https://kaspi.kz/shop/api/v2".

(** [makeRequest], lines 106-130; the network is the list of the requests
    sent so far. *)
Definition makeRequest (authToken : string) (endpoint : string) (method : string)
    (body : option string) (network : list Request)
  : list Request * Outcome UploadResult :=
  let request :=
    mkRequest (baseUrl ++ endpoint) method
      [("X-Auth-Token", authToken);
       ("Content-Type", "application/vnd.api+json");
       ("Accept", "application/vnd.api+json")]
      body in
  let response := fetch request in
  let network' := (network ++ [request])%list in
  if negb (ok response) then
    (network',
     ThrewError ("Kaspi API Error " ++ pretty (response_status response)
                 ++ ": " ++ response_text response))
  else (network', Returned (response_json response)).

(** [addProduct], lines 221-229. *)
Definition addProduct (authToken : string) (product : Product)
    (network : list Request) : list Request * Outcome UploadResult :=
  match ProductSchema_parse product with
  | Returned validatedProduct =>
      makeRequest authToken "/goods" "POST"
        (Some (JSON_stringify validatedProduct)) network
  | ThrewZodError issues => (network, ThrewZodError issues)
  | ThrewError message => (network, ThrewError message)
  end.

(** The rules of [ProductSchema], spelled out. *)
Definition schema_valid (product : Product) : Prop :=
  sku product <> "" /\ title product <> "" /\ brand product <> "" /\
  category product <> "" /\ description product <> "" /\
  Forall (fun image => is_url (url image) = true) (images product).

End Client.

End KaspiApi.

(** ** ControlPanel.tsx *)

Module ControlPanel.

Record AutomationSettings := mkAutomationSettings {
  auto_mode_enabled : bool;
  sync_interval_minutes : Z
}.

Record State := mkState {
  selectedSuppliers : list string;
  selectedMarketplaces : list string;
  automationSettings : AutomationSettings;
  showProgress : bool;
  progressType : LoadingProgress.RunType;
  showPriceUpdateModal : bool;
  toasts : list Toast
}.

Definition toast (t : Toast) (st : State) : State :=
  mkState (selectedSuppliers st) (selectedMarketplaces st) (automationSettings st)
    (showProgress st) (progressType st) (showPriceUpdateModal st)
    (toasts st ++ [t]).
Definition setShowProgress (b : bool) (st : State) : State :=
  mkState (selectedSuppliers st) (selectedMarketplaces st) (automationSettings st)
    b (progressType st) (showPriceUpdateModal st) (toasts st).
Definition setProgressType (t : LoadingProgress.RunType) (st : State) : State :=
  mkState (selectedSuppliers st) (selectedMarketplaces st) (automationSettings st)
    (showProgress st) t (showPriceUpdateModal st) (toasts st).
Definition setShowPriceUpdateModal (b : bool) (st : State) : State :=
  mkState (selectedSuppliers st) (selectedMarketplaces st) (automationSettings st)
    (showProgress st) (progressType st) b (toasts st).
Definition setSelectedMarketplaces (ids : list string) (st : State) : State :=
  mkState (selectedSuppliers st) ids (automationSettings st)
    (showProgress st) (progressType st) (showPriceUpdateModal st) (toasts st).

(** [handleLoadPrices], lines 101-113. *)
Definition handleLoadPrices (st : State) : State :=
  match selectedSuppliers st with
  | [] => toast (mkToast "Предупреждение" "Выберите хотя бы одного поставщика" true) st
  | _ => setShowProgress true (setProgressType LoadingProgress.download st)
  end.

(** [handleUploadPrices], lines 115-126. *)
Definition handleUploadPrices (st : State) : State :=
  match selectedSuppliers st with
  | [] => toast (mkToast "Предупреждение" "Выберите поставщиков для выгрузки цен" true) st
  | _ => setShowPriceUpdateModal true (setProgressType LoadingProgress.upload st)
  end.

(** [handleStartUpload], lines 128-132: the review modal's [onUpload]. *)
Definition handleStartUpload (selectedMarketplaceIds : list string) (st : State)
  : State :=
  setShowProgress true
    (setProgressType LoadingProgress.upload
       (setSelectedMarketplaces selectedMarketplaceIds st)).

(** The [onCancel] prop of [LoadingProgress], line 196. *)
Definition onCancel (st : State) : State := setShowProgress false st.

(** The [onComplete] prop of [LoadingProgress], lines 197-208. *)
Definition onComplete (st : State) : State :=
  let st1 := setShowProgress false st in
  let st2 :=
    toast (mkToast "Операция завершена"
             (match progressType st with
              | LoadingProgress.download => "Загрузка"
              | LoadingProgress.upload => "Выгрузка"
              end ++ " цен прошла успешно") false) st1 in
  match progressType st, auto_mode_enabled (automationSettings st) with
  | LoadingProgress.download, false => setShowPriceUpdateModal true st2
  | _, _ => st2
  end.

(** The review modal is rendered in mode 'upload' exactly when [progressType]
    is upload (line 362). *)
Definition modal_in_upload_mode (st : State) : bool :=
  match progressType st with
  | LoadingProgress.upload => true
  | LoadingProgress.download => false
  end.

(** What the user can trigger.  While [showProgress] holds the component
    renders only [LoadingProgress] (line 183), so only its two callbacks can
    fire; the modal's upload button exists only while the modal is open in
    mode 'upload', and [PriceUpdateModal.handleUpload] calls [onUpload] and
    then [onClose] (its two selection checks can only refuse the upload). *)
Inductive Event :=
  | ClickLoadPrices
  | ClickUploadPrices
  | ModalUpload (selectedMarketplaceIds : list string)
  | ModalClose
  | ProgressCancel
  | ProgressComplete.

Definition step (st : State) (ev : Event) : State :=
  if showProgress st then
    match ev with
    | ProgressCancel => onCancel st
    | ProgressComplete => onComplete st
    | _ => st
    end
  else
    match ev with
    | ClickLoadPrices => handleLoadPrices st
    | ClickUploadPrices => handleUploadPrices st
    | ModalUpload ids =>
        if showPriceUpdateModal st && modal_in_upload_mode st
        then setShowPriceUpdateModal false (handleStartUpload ids st)
        else st
    | ModalClose => setShowPriceUpdateModal false st
    | ProgressCancel | ProgressComplete => st
    end.

(** An upload run is on screen. *)
Definition upload_running (st : State) : bool :=
  showProgress st &&
  match progressType st with
  | LoadingProgress.upload => true
  | LoadingProgress.download => false
  end.

End ControlPanel.

(** ** KaspiPriceListDialog.tsx *)

Module KaspiPriceListDialog.

Record KaspiProduct := mkKaspiProduct {
  id : string;
  name : string;
  kaspiArticle : string;
  supplierArticle : string;
  price : Q
}.

(** [Number.prototype.toString] is the platform's. *)
Class NumberFormat := { toString : Q -> string }.

(** What the export relies on: an integer below 10^21 in magnitude prints as
    its decimal digits. *)
Definition prints_integers_in_decimal `{NumberFormat} : Prop :=
  forall z : Z, (Z.abs z < 10 ^ 21)%Z -> toString (inject_Z z) = pretty z.

Definition quote : string := String "034"%char EmptyString.
Definition newline : string := String "010"%char EmptyString.
(** U+FEFF, as the three bytes of its UTF-8 encoding. *)
Definition bom : string :=
  String "239"%char (String "187"%char (String "191"%char EmptyString)).

Definition headers : list string :=
  ["Наименование товара"; "Артикул Каспи"; "Артикул поставщика"; "Цена"].

Section ExportToFile.
Context `{format : NumberFormat}.

(** The CSV text, lines 109-118. *)
Definition csvContent (products : list KaspiProduct) : string :=
  String.concat newline
    (String.concat ";" headers
     :: map (fun p =>
               String.concat ";"
                 [quote ++ name p ++ quote;
                  kaspiArticle p;
                  supplierArticle p;
                  toString (price p)])
          products).

(** [handleExportToFile], lines 98-138: the text put into the blob, or
    nothing when there is no product to export. *)
Definition handleExportToFile (products : list KaspiProduct) : option string :=
  match products with
  | [] => None
  | _ => Some (bom ++ csvContent products)
  end.

End ExportToFile.

(** The lines of a text. *)
Fixpoint lines_from (current : string) (text : string) : list string :=
  match text with
  | EmptyString => [String.rev current]
  | String c rest =>
      if Ascii.eqb c "010"%char then String.rev current :: lines_from "" rest
      else lines_from (String c current) rest
  end.

Definition lines (text : string) : list string := lines_from "" text.

End KaspiPriceListDialog.

(** ** Stores for the scenarios *)

Module Scenario.

(** A store that keeps the inserted rows and rejects every row of one
    supplier with a network error. *)
Definition rejecting (supplier : string) : Supabase.Client :=
  {| Supabase.Store := list Supabase.ProductInsert;
     Supabase.insert rows row :=
       if String.eqb (Supabase.supplier_id row) supplier
       then (rows, Some (Supabase.mkPostgrestError "network error"))
       else ((rows ++ [row])%list, None) |}.

(** A platform that takes http(s) prefixes for URLs, prints a product as
    its sku and answers every request with 200. *)
Definition platform : KaspiApi.Platform :=
  {| KaspiApi.is_url u := String.prefix "http://" u || String.prefix "https://" u;
     KaspiApi.JSON_stringify p := KaspiApi.sku p;
     KaspiApi.fetch _ :=
       KaspiApi.mkResponse true 200 "" (KaspiApi.mkUploadResult "U1" "UPLOADED") |}.

Definition phone_without_images : KaspiApi.Product :=
  KaspiApi.mkProduct "SKU-1" "Phone" "Acme" "phones" "A phone" [] [].

Definition phone_without_sku : KaspiApi.Product :=
  KaspiApi.mkProduct "" "Phone" "Acme" "phones" "A phone"
    [KaspiApi.mkImage "https://example.com/image.jpg"]
    [KaspiApi.mkAttributeValue "color" "black"].

(** Numbers printed as the decimal digits of their integer part. *)
Definition decimal_toString (q : Q) : string :=
  pretty (Qnum q / Zpos (Qden q))%Z.

Definition decimal : KaspiPriceListDialog.NumberFormat :=
  {| KaspiPriceListDialog.toString := decimal_toString |}.

(** The rows of the reconciler's scenario: a supplier row with article A1
    and name X, a marketplace row with marketplace article A1 and name Y. *)
Definition supplier_row : PriceUpdateModal.Product :=
  PriceUpdateModal.mkProduct "s1" (Some "sup") None "X" None "A1" None
    (Some 1000%Q) None (Some "unchanged") None None None.

Definition marketplace_row : PriceUpdateModal.Product :=
  PriceUpdateModal.mkProduct "m1" None (Some "kaspi") "Z" (Some "Y") "B7" (Some "A1")
    None None None None None None.

Definition with_status (id : string) (status : option string)
  : PriceUpdateModal.Product :=
  PriceUpdateModal.mkProduct id (Some "sup") None "X" None "A1" None
    (Some 1000%Q) None status None None None.

End Scenario.

(** ** JavaScript [Set] of strings *)

Module JSSet.

(** A [Set] iterates its members in insertion order, each once: a list
    without repetition.  [Array.from(set)] is the list itself. *)
Definition has (s : list string) (x : string) : bool := bool_decide (x ∈ s).

Definition add (x : string) (s : list string) : list string :=
  if has s x then s else (s ++ [x])%list.

Definition delete (x : string) (s : list string) : list string :=
  filter (fun y => y <> x) s.

(** [new Set(iterable)]. *)
Definition of_list (l : list string) : list string :=
  foldl (fun s x => add x s) [] l.

End JSSet.

(** ** PriceUpdateModal.tsx: selection, upload and global pricing *)

Module PriceUpdateHandlers.
Import PriceUpdateModal.

(** The modal's React state, the toasts it raised and the calls it made to
    its [onUpload] and [onClose] props. *)
Record State := mkState {
  products : list Product;
  selectedProducts : list string;
  selectedMarketplaces : list string;
  globalPricingAction : string;
  globalPricingValue : Q;
  toasts : list Toast;
  onUpload_calls : list (list string);
  onClose_calls : nat
}.

Definition setSelectedProducts (sel : list string) (st : State) : State :=
  mkState (products st) sel (selectedMarketplaces st) (globalPricingAction st)
    (globalPricingValue st) (toasts st) (onUpload_calls st) (onClose_calls st).
Definition setSelectedMarketplaces (sel : list string) (st : State) : State :=
  mkState (products st) (selectedProducts st) sel (globalPricingAction st)
    (globalPricingValue st) (toasts st) (onUpload_calls st) (onClose_calls st).
Definition setProducts (rows : list Product) (st : State) : State :=
  mkState rows (selectedProducts st) (selectedMarketplaces st)
    (globalPricingAction st) (globalPricingValue st) (toasts st)
    (onUpload_calls st) (onClose_calls st).
Definition toast (t : Toast) (st : State) : State :=
  mkState (products st) (selectedProducts st) (selectedMarketplaces st)
    (globalPricingAction st) (globalPricingValue st) (toasts st ++ [t])
    (onUpload_calls st) (onClose_calls st).

(** [handleMarketplaceSelect], lines 80-88. *)
Definition handleMarketplaceSelect (marketplaceId : string) (checked : bool)
    (st : State) : State :=
  setSelectedMarketplaces
    (if checked then JSSet.add marketplaceId (selectedMarketplaces st)
     else JSSet.delete marketplaceId (selectedMarketplaces st)) st.

(** [handleMarketplaceSelectAll] and [handleMarketplaceDeselectAll],
    lines 90-96; [marketplaces] are the ids of the prop. *)
Definition handleMarketplaceSelectAll (marketplaces : list string) (st : State)
  : State :=
  setSelectedMarketplaces (JSSet.of_list marketplaces) st.
Definition handleMarketplaceDeselectAll (st : State) : State :=
  setSelectedMarketplaces [] st.

(** [handleSelectAll], [handleDeselectAll], [handleProductSelect],
    lines 196-212. *)
Definition handleSelectAll (st : State) : State :=
  setSelectedProducts (JSSet.of_list (map id (products st))) st.
Definition handleDeselectAll (st : State) : State :=
  setSelectedProducts [] st.
Definition handleProductSelect (productId : string) (checked : bool)
    (st : State) : State :=
  setSelectedProducts
    (if checked then JSSet.add productId (selectedProducts st)
     else JSSet.delete productId (selectedProducts st)) st.

(** [handleUpload], lines 98-119. *)
Definition handleUpload (st : State) : State :=
  match selectedMarketplaces st, selectedProducts st with
  | [], _ =>
      toast (mkToast "Предупреждение" "Выберите маркетплейсы для выгрузки" true) st
  | _, [] =>
      toast (mkToast "Предупреждение" "Выберите товары для выгрузки" true) st
  | chosen, _ =>
      mkState (products st) (selectedProducts st) (selectedMarketplaces st)
        (globalPricingAction st) (globalPricingValue st) (toasts st)
        (onUpload_calls st ++ [chosen]) (S (onClose_calls st))
  end.

(** The controls of the modal. *)
Inductive Event :=
  | MarketplaceSelect (marketplaceId : string) (checked : bool)
  | MarketplaceSelectAll (marketplaces : list string)
  | MarketplaceDeselectAll
  | SelectAll
  | DeselectAll
  | ProductSelect (productId : string) (checked : bool)
  | Upload.

Definition handle (st : State) (ev : Event) : State :=
  match ev with
  | MarketplaceSelect marketplaceId checked =>
      handleMarketplaceSelect marketplaceId checked st
  | MarketplaceSelectAll marketplaces => handleMarketplaceSelectAll marketplaces st
  | MarketplaceDeselectAll => handleMarketplaceDeselectAll st
  | SelectAll => handleSelectAll st
  | DeselectAll => handleDeselectAll st
  | ProductSelect productId checked => handleProductSelect productId checked st
  | Upload => handleUpload st
  end.

(** The modal as it opens, lines 66-71. *)
Definition opened (rows : list Product) : State :=
  mkState rows [] [] "multiply" 1 [] [] 0.

(** What holds of the modal at every moment: both selections list each id
    once, and every list handed to [onUpload] is non-empty, without
    repetition. *)
Definition modal_invariant (st : State) : Prop :=
  NoDup (selectedProducts st) /\
  NoDup (selectedMarketplaces st) /\
  Forall (fun chosen => chosen <> [] /\ NoDup chosen) (onUpload_calls st) /\
  length (onUpload_calls st) = onClose_calls st.

(** [products.find(p => p.id === productId)]. *)
Definition find_product (rows : list Product) (productId : string) : option Product :=
  List.find (fun p => String.eqb (id p) productId) rows.

(** The [updates] of [applyGlobalPricing], lines 239-255: one entry per
    selected id that names a product, in the order of the selection. *)
Definition updates (rows : list Product) (selected : list string)
    (action : string) (value : Q) : list Update :=
  omap (fun productId =>
          match find_product rows productId with
          | None => None
          | Some product => Some (applyGlobalPricing_update product action value)
          end) selected.

(** The row after [.update(update).eq('id', update.id)]: the four columns
    of the update replace the row's. *)
Definition patch (u : Update) (row : Product) : Product :=
  PriceUpdateModal.mkProduct (id row) (supplier_id row) (marketplace_id row)
    (name_supplier row) (name_marketplace row) (supplier_article row)
    (marketplace_article row) (current_price row) (u_new_price u)
    (Some (u_price_status u)) (Some (u_pricing_action u))
    (Some (u_pricing_value u)) (display_name row).

(** The table after a list of updates, each applied to the rows of its id. *)
Definition patch_all (us : list Update) (rows : list Product) : list Product :=
  foldl (fun rows' u =>
           map (fun row => if String.eqb (id row) (u_id u) then patch u row else row)
             rows') rows us.

(** The store as [applyGlobalPricing] uses it: an update by id answers with
    an error or none. *)
Class Table := {
  Rows : Type;
  update : Rows -> Update -> Rows * option Supabase.PostgrestError
}.

Section Sending.
Context `{table : Table}.

(** The loop of lines 257-264: the updates go out one by one and the first
    error is thrown. *)
Fixpoint send_updates (us : list Update) (rows : Rows)
  : Rows * option Supabase.PostgrestError :=
  match us with
  | [] => (rows, None)
  | u :: rest =>
      match update rows u with
      | (rows', Some error) => (rows', Some error)
      | (rows', None) => send_updates rest rows'
      end
  end.

(** [applyGlobalPricing], lines 227-285, with the rows that the refetch of
    line 272 delivers. *)
Definition applyGlobalPricing (refetched : Rows -> list Product)
    (st : State) (rows : Rows) : State * Rows :=
  match selectedProducts st with
  | [] =>
      (toast (mkToast "Предупреждение" "Выберите товары для применения цен" true) st,
       rows)
  | selected =>
      match send_updates
              (updates (products st) selected
                 (globalPricingAction st) (globalPricingValue st)) rows with
      | (rows', Some _) =>
          (toast (mkToast "Ошибка" "Не удалось применить цены" true) st, rows')
      | (rows', None) =>
          (setSelectedProducts []
             (setProducts (refetched rows')
                (toast (mkToast "Успешно"
                          ("Цены применены для " ++ pretty (length selected)
                           ++ " товаров") false) st)),
           rows')
      end
  end.

End Sending.

(** The second query of [fetchProducts], lines 139-146, over a table read in
    its own order: the rows whose marketplace article is one of the
    suppliers' articles and whose marketplace is set. *)
Definition supplierArticles (supplierProducts : list Product) : list string :=
  JSSet.of_list (map supplier_article supplierProducts).

(** [.not('marketplace_id', 'is', null)]. *)
Definition linked_to_marketplace (row : Product) : bool :=
  match marketplace_id row with Some _ => true | None => false end.

(** [.in('marketplace_article', articles)]. *)
Definition article_in (articles : list string) (row : Product) : bool :=
  match marketplace_article row with
  | Some a => JSSet.has articles a
  | None => false
  end.

Definition marketplace_query (table : list Product) (articles : list string)
  : list Product :=
  List.filter (fun row => article_in articles row && linked_to_marketplace row) table.

End PriceUpdateHandlers.

(** ** PriceUpdateModal.tsx: the pricing rule in binary64 *)

Module Binary64.
Import PriceUpdateModal.

(** The numbers of the source are binary64: [a * b] and [a + b] are the
    exact results rounded to a number that binary64 holds.  [round] is that
    rounding; infinities and NaN stay outside, as everywhere. *)
Class Rounding := { round : Q -> Q }.

(** What is used of the rounding: it keeps the order of the numbers, and a
    number that binary64 holds is left as it is. *)
Definition monotone `{Rounding} : Prop :=
  forall x y : Q, (x <= y)%Q -> (round x <= round y)%Q.
Definition representable `{Rounding} (x : Q) : Prop := (round x == x)%Q.

(** No rounding at all: the arithmetic of the exact numbers. *)
Definition unrounded : Rounding := {| round q := q |}.

Section Rounded.
Context `{rounding : Rounding}.

(** [calculateNewPrice], lines 214-225, with the rounding of [*] and [+]
    written out. *)
Definition calculateNewPrice (currentPrice : option Q) (action : string) (value : Q)
  : option Q :=
  if negb (JS.truthy_number currentPrice) then None
  else
    match currentPrice with
    | None => None
    | Some p =>
        if String.eqb action "multiply" then Some (round (p * value))%Q
        else if String.eqb action "add" then Some (round (p + value))%Q
        else Some p
    end.

(** One entry of [updates] in [applyGlobalPricing], lines 243-254. *)
Definition applyGlobalPricing_update
    (product : Product) (globalPricingAction : string) (globalPricingValue : Q)
  : Update :=
  let newPrice :=
    calculateNewPrice (current_price product) globalPricingAction globalPricingValue in
  {| u_id := id product;
     u_new_price := newPrice;
     u_pricing_action := globalPricingAction;
     u_pricing_value := globalPricingValue;
     u_price_status := price_status_of (current_price product) newPrice |}.

End Rounded.

End Binary64.

(** ** SandboxPage.tsx: counting the requests *)

Module SandboxCounting.
Import SandboxPage.

(** The number of test requests made since the counter was last reset. *)
Definition requests_since_reset (evs : list Event) : Z :=
  foldl (fun n ev =>
           match ev with
           | RunTest _ => (n + 1)%Z
           | ResetTestCounter => 0%Z
           | OnCancel | OnComplete => n
           end) 0%Z evs.

End SandboxCounting.

(** ** SandboxPage.tsx, the page with the marketplace products test *)

Module SandboxPage2.

Inductive TestType := download | upload | marketplace_products.

Record State := mkState {
  testing : bool;
  showProgress : bool;
  testType : TestType;
  testRequests : SandboxPage.TestRequests;
  marketplaces : list string;
  selectedMarketplace : string;
  toasts : list Toast
}.

(** The [useState] initial values, lines 178-183; the marketplaces arrive by
    [fetchMarketplaces]. *)
Definition initial (marketplaces : list string) : State :=
  mkState false false download (SandboxPage.mkTestRequests 0 100) marketplaces "" [].

(** [runTest], lines 205-230. *)
Definition runTest (type : TestType) (st : State) : State :=
  if (SandboxPage.max (testRequests st) <=? SandboxPage.used (testRequests st))%Z then
    mkState (testing st) (showProgress st) (testType st) (testRequests st)
      (marketplaces st) (selectedMarketplace st)
      (toasts st ++ [mkToast "Лимит исчерпан" "Достигнут лимит тестовых запросов" true])
  else if match type with marketplace_products => true | _ => false end
          && negb (JS.truthy_string (Some (selectedMarketplace st))) then
    mkState (testing st) (showProgress st) (testType st) (testRequests st)
      (marketplaces st) (selectedMarketplace st)
      (toasts st ++
       [mkToast "Выберите маркетплейс"
          "Для тестирования загрузки товаров необходимо выбрать маркетплейс" true])
  else
    mkState true true type
      (SandboxPage.mkTestRequests (SandboxPage.used (testRequests st) + 1)
         (SandboxPage.max (testRequests st)))
      (marketplaces st) (selectedMarketplace st) (toasts st).

(** [resetTestCounter], lines 232-238. *)
Definition resetTestCounter (st : State) : State :=
  mkState (testing st) (showProgress st) (testType st)
    (SandboxPage.mkTestRequests 0 (SandboxPage.max (testRequests st)))
    (marketplaces st) (selectedMarketplace st)
    (toasts st ++ [mkToast "Успешно" "Счетчик тестовых запросов сброшен" false]).

Definition setSelectedMarketplace (value : string) (st : State) : State :=
  mkState (testing st) (showProgress st) (testType st) (testRequests st)
    (marketplaces st) value (toasts st).

Definition onCancel (st : State) : State :=
  mkState false false (testType st) (testRequests st) (marketplaces st)
    (selectedMarketplace st) (toasts st).

Definition onComplete (st : State) : State :=
  mkState false false (testType st) (testRequests st) (marketplaces st)
    (selectedMarketplace st)
    (toasts st ++ [mkToast "Тест завершен" "Тестирование API прошло успешно" false]).

(** The [marketplaces] prop handed to [LoadingProgress], lines 247-248. *)
Definition run_marketplaces (st : State) : list string :=
  match testType st with
  | download => []
  | upload => ["test-marketplace"]
  | marketplace_products =>
      List.filter (fun m => String.eqb m (selectedMarketplace st)) (marketplaces st)
  end.

(** What the user can trigger: while [showProgress] holds only the two
    callbacks of [LoadingProgress] (line 242), otherwise the buttons and the
    marketplace selector. *)
Inductive Event :=
  | RunTest (type : TestType)
  | ResetTestCounter
  | SelectMarketplace (value : string)
  | OnCancel
  | OnComplete.

Definition step (st : State) (ev : Event) : State :=
  if showProgress st then
    match ev with
    | OnCancel => onCancel st
    | OnComplete => onComplete st
    | _ => st
    end
  else
    match ev with
    | RunTest type => runTest type st
    | ResetTestCounter => resetTestCounter st
    | SelectMarketplace value => setSelectedMarketplace value st
    | OnCancel | OnComplete => st
    end.

(** What holds of the page at every moment. *)
Definition invariant (st : State) : Prop :=
  (0 <= SandboxPage.used (testRequests st) <= SandboxPage.max (testRequests st))%Z /\
  testing st = showProgress st /\
  (showProgress st = true -> testType st = marketplace_products ->
     selectedMarketplace st <> "").

End SandboxPage2.

(** ** kaspi-api.ts: orders *)

Module KaspiOrders.

(** A JSON value as [response.json()] delivers it.  An object lists its
    members in the order of the text; of two members of one name the later
    one counts. *)
#[warnings="-register-all"]
Inductive JSON :=
  | JNull
  | JBool (b : bool)
  | JNumber (q : Q)
  | JString (s : string)
  | JArray (items : list JSON)
  | JObject (members : list (string * JSON)).

(** [value[key]]: undefined ([None]) when there is no such member. *)
Fixpoint member (key : string) (members : list (string * JSON)) : option JSON :=
  match members with
  | [] => None
  | (k, v) :: rest =>
      match member key rest with
      | Some later => Some later
      | None => if String.eqb k key then Some v else None
      end
  end.

(** The zod schemas the file uses: [z.string()], [z.number()],
    [z.boolean()] accept a value of that type only; [.optional()] also
    accepts a missing member, and nothing else (null is not accepted). *)
Definition z_string (v : option JSON) : option string :=
  match v with Some (JString s) => Some s | _ => None end.
Definition z_number (v : option JSON) : option Q :=
  match v with Some (JNumber q) => Some q | _ => None end.
Definition z_boolean (v : option JSON) : option bool :=
  match v with Some (JBool b) => Some b | _ => None end.
Definition z_optional {A} (schema : option JSON -> option A) (v : option JSON)
  : option (option A) :=
  match v with
  | None => Some None
  | Some _ => option_map Some (schema v)
  end.

(** [type OrderEntry], lines 9-21. *)
Record OrderEntry := mkOrderEntry {
  entry_id : string;
  unitType : string;
  quantity : Q;
  totalPrice : Q;
  weight : option Q;
  entryNumber : string;
  category : string;
  title : string;
  deliveryCost : Q;
  basePrice : Q;
  isImeiRequired : bool
}.

(** [OrderEntrySchema.parse]: [None] when a [ZodError] is thrown.  Members
    the schema does not name are dropped. *)
Definition OrderEntrySchema_parse (value : JSON) : option OrderEntry :=
  match value with
  | JObject members =>
      id ← z_string (member "id" members);
      unitType ← z_string (member "unitType" members);
      quantity ← z_number (member "quantity" members);
      totalPrice ← z_number (member "totalPrice" members);
      weight ← z_optional z_number (member "weight" members);
      entryNumber ← z_string (member "entryNumber" members);
      category ← z_string (member "category" members);
      title ← z_string (member "title" members);
      deliveryCost ← z_number (member "deliveryCost" members);
      basePrice ← z_number (member "basePrice" members);
      isImeiRequired ← z_boolean (member "isImeiRequired" members);
      Some (mkOrderEntry id unitType quantity totalPrice weight entryNumber
              category title deliveryCost basePrice isImeiRequired)
  | _ => None
  end.

(** [z.array(schema)]. *)
Definition z_array {A} (schema : JSON -> option A) (v : option JSON)
  : option (list A) :=
  match v with
  | Some (JArray items) => mapM schema items
  | _ => None
  end.

(** [type Order], lines 23-30. *)
Record Order := mkOrder {
  order_id : string;
  code : string;
  status : string;
  entries : list OrderEntry;
  order_totalPrice : option Q;
  createdAt : option string
}.

(** [OrderSchema.parse]. *)
Definition OrderSchema_parse (value : JSON) : option Order :=
  match value with
  | JObject members =>
      id ← z_string (member "id" members);
      code ← z_string (member "code" members);
      status ← z_string (member "status" members);
      entries ← z_array OrderEntrySchema_parse (member "entries" members);
      totalPrice ← z_optional z_number (member "totalPrice" members);
      createdAt ← z_optional z_string (member "createdAt" members);
      Some (mkOrder id code status entries totalPrice createdAt)
  | _ => None
  end.

(** What [fetch] answers: [ok], [status], the body as text and the body
    read as JSON, if it is JSON. *)
Record Response := mkResponse {
  ok : bool;
  response_status : N;
  response_text : string;
  response_json : option JSON
}.

(** How a call of the client ends. *)
Inductive Result (A : Type) :=
  | Returned (a : A)
  | ThrewApiError (message : string)
  | ThrewSyntaxError
  | ThrewTypeError
  | ThrewZodError (index : nat).
Arguments Returned {A} a.
Arguments ThrewApiError {A} message.
Arguments ThrewSyntaxError {A}.
Arguments ThrewTypeError {A}.
Arguments ThrewZodError {A} index.

(** [OrdersParams], lines 79-84; a page number and a page size are natural
    numbers. *)
Record OrdersParams := mkOrdersParams {
  filter : option string;
  sort : option string;
  page : option N;
  pageSize : option N
}.

(** What the client takes from its platform: [fetch] and the text of a
    [URLSearchParams]. *)
Class Platform := {
  fetch : KaspiApi.Request -> Response;
  URLSearchParams_toString : list (string * string) -> string
}.

Section Client.
Context `{platform : Platform}.

(** [makeRequest], lines 106-130, for any endpoint: the request is sent,
    then a response that is not ok is thrown as an error, and the body of an
    ok response is read as JSON. *)
Definition makeRequest (authToken endpoint method : string) (body : option string)
    (network : list KaspiApi.Request) : list KaspiApi.Request * Result JSON :=
  let request :=
    KaspiApi.mkRequest (KaspiApi.baseUrl ++ endpoint) method
      [("X-Auth-Token", authToken);
       ("Content-Type", "application/vnd.api+json");
       ("Accept", "application/vnd.api+json")]
      body in
  let response := fetch request in
  let network' := (network ++ [request])%list in
  if negb (ok response) then
    (network',
     ThrewApiError ("Kaspi API Error " ++ pretty (response_status response)
                    ++ ": " ++ response_text response))
  else
    match response_json response with
    | Some json => (network', Returned json)
    | None => (network', ThrewSyntaxError)
    end.

(** [response.data.map(item => schema.parse(item))]: the first item that
    does not parse throws. *)
Fixpoint parse_all {A} (schema : JSON -> option A) (index : nat) (items : list JSON)
  : Result (list A) :=
  match items with
  | [] => Returned []
  | item :: rest =>
      match schema item with
      | None => ThrewZodError index
      | Some a =>
          match parse_all schema (S index) rest with
          | Returned parsed => Returned (a :: parsed)
          | thrown => thrown
          end
      end
  end.

Definition parse_data {A} (schema : JSON -> option A) (json : JSON)
  : Result (list A) :=
  match json with
  | JObject members =>
      match member "data" members with
      | Some (JArray items) => parse_all schema 0 items
      | _ => ThrewTypeError
      end
  | _ => ThrewTypeError
  end.

(** The parameters [getOrders] puts into the query, lines 134-139: a
    parameter that is missing, empty or zero is left out. *)
Definition query_of (params : OrdersParams) : list (string * string) :=
  (match filter params with
   | Some f => if JS.truthy_string (Some f) then [("filter", f)] else []
   | None => []
   end
   ++ match sort params with
      | Some s => if JS.truthy_string (Some s) then [("sort", s)] else []
      | None => []
      end
   ++ match page params with
      | Some n => if (n =? 0)%N then [] else [("page", pretty n)]
      | None => []
      end
   ++ match pageSize params with
      | Some n => if (n =? 0)%N then [] else [("pageSize", pretty n)]
      | None => []
      end)%list.

(** [getOrders], lines 133-146; no method is given, so [fetch] sends a
    GET. *)
Definition getOrders (authToken : string) (params : OrdersParams)
    (network : list KaspiApi.Request) : list KaspiApi.Request * Result (list Order) :=
  let queryString := URLSearchParams_toString (query_of params) in
  let endpoint :=
    "/orders" ++ (if JS.truthy_string (Some queryString)
                  then "?" ++ queryString else "") in
  match makeRequest authToken endpoint "GET" None network with
  | (network', Returned json) => (network', parse_data OrderSchema_parse json)
  | (network', ThrewApiError message) => (network', ThrewApiError message)
  | (network', ThrewSyntaxError) => (network', ThrewSyntaxError)
  | (network', ThrewTypeError) => (network', ThrewTypeError)
  | (network', ThrewZodError index) => (network', ThrewZodError index)
  end.

(** [getOrderEntries], lines 148-151. *)
Definition getOrderEntries (authToken orderId : string)
    (network : list KaspiApi.Request)
  : list KaspiApi.Request * Result (list OrderEntry) :=
  match makeRequest authToken ("/orders/" ++ orderId ++ "/entries") "GET" None
          network with
  | (network', Returned json) => (network', parse_data OrderEntrySchema_parse json)
  | (network', ThrewApiError message) => (network', ThrewApiError message)
  | (network', ThrewSyntaxError) => (network', ThrewSyntaxError)
  | (network', ThrewTypeError) => (network', ThrewTypeError)
  | (network', ThrewZodError index) => (network', ThrewZodError index)
  end.

(** The operations that return nothing, lines 153-204: the endpoint, the
    method and whether a body goes with the request. *)
Inductive Operation :=
  | AcceptOrder (orderId code : string)
  | UpdateOrderStatus (orderId status : string)
  | CancelOrder (orderId : string)
  | CreateWaybill (orderId : string)
  | SetImei (orderId imei : string)
  | ModifyOrderEntry (orderId entryId : string).

Definition endpoint_of (op : Operation) : string :=
  match op with
  | AcceptOrder orderId _ | UpdateOrderStatus orderId _ =>
      "/orders/" ++ orderId ++ "/status"
  | CancelOrder orderId => "/orders/" ++ orderId
  | CreateWaybill orderId => "/orders/" ++ orderId ++ "/waybill"
  | SetImei orderId _ => "/orders/" ++ orderId ++ "/imei"
  | ModifyOrderEntry orderId entryId =>
      "/orders/" ++ orderId ++ "/entries/" ++ entryId
  end.

Definition method_of (op : Operation) : string :=
  match op with
  | AcceptOrder _ _ | CreateWaybill _ => "POST"
  | UpdateOrderStatus _ _ | SetImei _ _ | ModifyOrderEntry _ _ => "PUT"
  | CancelOrder _ => "DELETE"
  end.

(** [await this.makeRequest(...)] with the value dropped; [body] is the
    text [JSON.stringify] made, if the operation sends one. *)
Definition perform (authToken : string) (op : Operation) (body : option string)
    (network : list KaspiApi.Request) : list KaspiApi.Request * Result unit :=
  match makeRequest authToken (endpoint_of op) (method_of op) body network with
  | (network', Returned _) => (network', Returned tt)
  | (network', ThrewApiError message) => (network', ThrewApiError message)
  | (network', ThrewSyntaxError) => (network', ThrewSyntaxError)
  | (network', ThrewTypeError) => (network', ThrewTypeError)
  | (network', ThrewZodError index) => (network', ThrewZodError index)
  end.

End Client.

(** An order entry as a JSON object of exactly the schema's members; a
    missing weight is left out. *)
Definition entry_json (e : OrderEntry) : JSON :=
  JObject
    ([("id", JString (entry_id e));
      ("unitType", JString (unitType e));
      ("quantity", JNumber (quantity e));
      ("totalPrice", JNumber (totalPrice e))]
     ++ match weight e with Some w => [("weight", JNumber w)] | None => [] end
     ++ [("entryNumber", JString (entryNumber e));
         ("category", JString (category e));
         ("title", JString (title e));
         ("deliveryCost", JNumber (deliveryCost e));
         ("basePrice", JNumber (basePrice e));
         ("isImeiRequired", JBool (isImeiRequired e))])%list.

Definition order_json (o : Order) : JSON :=
  JObject
    ([("id", JString (order_id o));
      ("code", JString (code o));
      ("status", JString (status o));
      ("entries", JArray (map entry_json (entries o)))]
     ++ match order_totalPrice o with
        | Some p => [("totalPrice", JNumber p)]
        | None => []
        end
     ++ match createdAt o with
        | Some d => [("createdAt", JString d)]
        | None => []
        end)%list.

(** The names [OrderEntrySchema] reads. *)
Definition entry_keys : list string :=
  ["id"; "unitType"; "quantity"; "totalPrice"; "weight"; "entryNumber";
   "category"; "title"; "deliveryCost"; "basePrice"; "isImeiRequired"].

Definition is_entry_key (key : string) : bool :=
  existsb (String.eqb key) entry_keys.

End KaspiOrders.

(** ** ControlPanel.tsx: the check boxes *)

Module ControlPanelSelection.
Import ControlPanel.

Definition setSelectedSuppliers (ids : list string) (st : State) : State :=
  mkState ids (selectedMarketplaces st) (automationSettings st)
    (showProgress st) (progressType st) (showPriceUpdateModal st) (toasts st).

(** [handleSupplierSelect], lines 85-91. *)
Definition handleSupplierSelect (supplierId : string) (checked : bool) (st : State)
  : State :=
  setSelectedSuppliers
    (if checked then (selectedSuppliers st ++ [supplierId])%list
     else List.filter (fun id => negb (String.eqb id supplierId))
            (selectedSuppliers st))
    st.

(** [handleMarketplaceSelect], lines 93-99. *)
Definition handleMarketplaceSelect (marketplaceId : string) (checked : bool)
    (st : State) : State :=
  setSelectedMarketplaces
    (if checked then (selectedMarketplaces st ++ [marketplaceId])%list
     else List.filter (fun id => negb (String.eqb id marketplaceId))
            (selectedMarketplaces st))
    st.

(** [ids.includes(id)]. *)
Definition includes (ids : list string) (id : string) : bool :=
  existsb (String.eqb id) ids.

(** The page: the ids of the active suppliers and marketplaces that
    [fetchData] loaded, and the state of the panel. *)
Record Page := mkPage {
  suppliers : list string;
  marketplaces : list string;
  panel : State
}.

(** The [useState] initial values, lines 34-45, with the settings as
    [fetchData] found them. *)
Definition initial (suppliers marketplaces : list string)
    (settings : AutomationSettings) : Page :=
  mkPage suppliers marketplaces
    (mkState [] [] settings false LoadingProgress.download false []).

(** The [suppliers] and [marketplaces] props of [LoadingProgress],
    lines 194-195. *)
Definition run_suppliers (page : Page) : list string :=
  match progressType (panel page) with
  | LoadingProgress.download =>
      List.filter (includes (selectedSuppliers (panel page))) (suppliers page)
  | LoadingProgress.upload => []
  end.

Definition run_marketplaces (page : Page) : list string :=
  match progressType (panel page) with
  | LoadingProgress.upload =>
      List.filter (includes (selectedMarketplaces (panel page))) (marketplaces page)
  | LoadingProgress.download => []
  end.

(** What the user can trigger: a click on the check box of a listed supplier
    or marketplace, which reports the opposite of what the box shows
    (lines 260-266 and 307-313), and the events of the panel.  The check
    boxes are not rendered while [showProgress] holds (line 183). *)
Inductive Event :=
  | ClickSupplier (supplierId : string)
  | ClickMarketplace (marketplaceId : string)
  | Panel (ev : ControlPanel.Event).

Definition step (page : Page) (ev : Event) : Page :=
  let st := panel page in
  match ev with
  | ClickSupplier supplierId =>
      if showProgress st || negb (includes (suppliers page) supplierId) then page
      else
        mkPage (suppliers page) (marketplaces page)
          (handleSupplierSelect supplierId
             (negb (includes (selectedSuppliers st) supplierId)) st)
  | ClickMarketplace marketplaceId =>
      if showProgress st || negb (includes (marketplaces page) marketplaceId)
      then page
      else
        mkPage (suppliers page) (marketplaces page)
          (handleMarketplaceSelect marketplaceId
             (negb (includes (selectedMarketplaces st) marketplaceId)) st)
  | Panel ev =>
      mkPage (suppliers page) (marketplaces page) (ControlPanel.step st ev)
  end.

(** What holds of the page at every moment. *)
Definition invariant (page : Page) : Prop :=
  NoDup (selectedSuppliers (panel page)) /\
  (forall id, In id (selectedSuppliers (panel page)) -> In id (suppliers page)) /\
  (showProgress (panel page) = true ->
   progressType (panel page) = LoadingProgress.download ->
   selectedSuppliers (panel page) <> []).

End ControlPanelSelection.

(** ** Counting a character in a text *)

Module Text.

Fixpoint count (c : ascii) (text : string) : nat :=
  match text with
  | EmptyString => 0
  | String c' rest => (if Ascii.eqb c' c then 1 else 0) + count c rest
  end.

End Text.

(** ** A store that records what is inserted *)

Module Recording.

(** Any store, with the list of the rows handed to [insert] so far. *)
Definition client (db : Supabase.Client) : Supabase.Client :=
  {| Supabase.Store := (@Supabase.Store db * list Supabase.ProductInsert)%type;
     Supabase.insert st row :=
       let '(s', error) := @Supabase.insert db (fst st) row in
       ((s', (snd st ++ [row])%list), error) |}.

Definition log {db : Supabase.Client} (st : @Supabase.Store (client db))
  : list Supabase.ProductInsert := snd st.

(** The row [loadSupplierData] builds for a sample product, lines 528-535. *)
Definition row_of (supplierId : string) (product : LoadingProgress.SampleProduct)
  : Supabase.ProductInsert :=
  Supabase.mkProductInsert supplierId (LoadingProgress.article product)
    (LoadingProgress.sample_name product) (LoadingProgress.price product)
    "multiply" 1.

Definition rows_for (supplierId : string) : list Supabase.ProductInsert :=
  map (row_of supplierId) LoadingProgress.sampleProducts.

(** A store whose [insert] never answers with an error. *)
Definition never_rejects {db : Supabase.Client} : Prop :=
  forall (s : @Supabase.Store db) (row : Supabase.ProductInsert),
    snd (@Supabase.insert db s row) = None.

End Recording.

(** ** Fixtures *)

Module Fixtures.
Import PriceUpdateModal.

(** A table of product rows whose update answers with an error for the row
    id "locked" and patches the row otherwise. *)
Definition table_with_locked_row : PriceUpdateHandlers.Table :=
  {| PriceUpdateHandlers.Rows := list Product;
     PriceUpdateHandlers.update rows u :=
       if String.eqb (u_id u) "locked"
       then (rows, Some (Supabase.mkPostgrestError "row is locked"))
       else (PriceUpdateHandlers.patch_all [u] rows, None) |}.

Definition row (id : string) (price : option Q) : Product :=
  mkProduct id (Some "sup") None "X" None "A1" None price None None None None None.

(** A store that only counts the rows it accepts. *)
Definition accepting : Supabase.Client :=
  {| Supabase.Store := nat;
     Supabase.insert count _ := (S count, None) |}.

(** A platform that answers every request with 200 and one body, and
    writes a query as name=value pairs joined by an ampersand. *)
Definition answering (body : KaspiOrders.JSON) : KaspiOrders.Platform :=
  {| KaspiOrders.fetch _ := KaspiOrders.mkResponse true 200 "" (Some body);
     KaspiOrders.URLSearchParams_toString pairs :=
       String.concat "&" (map (fun kv => fst kv ++ "=" ++ snd kv) pairs) |}.

Definition order_1 : KaspiOrders.Order :=
  KaspiOrders.mkOrder "1" "C-1" "NEW"
    [KaspiOrders.mkOrderEntry "e1" "PIECE" 2 3000 None "1" "phones" "Phone" 0
       1500 false]
    (Some 3000%Q) None.

(** A rounding for the scenarios: down to the next integer. *)
Definition to_integer : Binary64.Rounding :=
  {| Binary64.round q := inject_Z (Qfloor q) |}.

End Fixtures.

(** * Properties *)

(** ** JavaScript comparisons and truthiness *)

Lemma gt_spec a b : JS.gt a b = true <-> (b < a)%Q.
Proof.
  unfold JS.gt. rewrite Qlt_alt, <- (Qcompare_antisym a b).
  destruct (a ?= b)%Q; simpl; split; congruence.
Qed.

Lemma lt_spec a b : JS.lt a b = true <-> (a < b)%Q.
Proof.
  unfold JS.lt. rewrite Qlt_alt.
  destruct (a ?= b)%Q; simpl; split; congruence.
Qed.

Lemma truthy_number_Some q : JS.truthy_number (Some q) = true <-> ~ (q == 0)%Q.
Proof.
  simpl. rewrite negb_true_iff, <- not_true_iff_false, Qeq_bool_iff. tauto.
Qed.

Lemma falsy_number_Some q : JS.truthy_number (Some q) = false <-> (q == 0)%Q.
Proof.
  simpl. rewrite negb_false_iff, Qeq_bool_iff. tauto.
Qed.


(** ** Pricing rule evaluator *)

Section Pricing.
Import PriceUpdateModal.
Local Open Scope Q_scope.

Lemma calculateNewPrice_truthy (p v : Q) (action : string) :
  ~ p == 0 ->
  calculateNewPrice (Some p) action v =
    if String.eqb action "multiply" then Some (p * v)
    else if String.eqb action "add" then Some (p + v)
    else Some p.
Proof.
  intros Hp. unfold calculateNewPrice.
  apply truthy_number_Some in Hp. rewrite Hp. reflexivity.
Qed.

(** C2, as amended: for every non-zero current price [p] and every value [v]
    the evaluator returns [p * v] for 'multiply', [p + v] for 'add' and [p]
    itself for any other action; for an absent price it returns null. *)
Theorem calculateNewPrice_rule (p v : Q) (action : string) (Hp : ~ p == 0) :
  calculateNewPrice (Some p) "multiply" v = Some (p * v) /\
  calculateNewPrice (Some p) "add" v = Some (p + v) /\
  (action <> "multiply" -> action <> "add" ->
     calculateNewPrice (Some p) action v = Some p) /\
  calculateNewPrice None action v = None.
Proof.
  repeat split; try (rewrite calculateNewPrice_truthy by exact Hp; reflexivity).
  intros Hm Ha. rewrite calculateNewPrice_truthy by exact Hp.
  apply String.eqb_neq in Hm, Ha. rewrite Hm, Ha. reflexivity.
Qed.

Lemma calculateNewPrice_rule_witness :
  calculateNewPrice (Some 1000) "multiply" (11 # 10) = Some (1000 * (11 # 10)) /\
  calculateNewPrice (Some 1000) "add" 250 = Some (1000 + 250) /\
  calculateNewPrice (Some 1000) "divide" 3 = Some 1000 /\
  calculateNewPrice None "multiply" 3 = None.
Proof.
  assert (H1000 : ~ 1000 == 0) by discriminate.
  split; [ exact (proj1 (calculateNewPrice_rule 1000 (11 # 10) "multiply" H1000)) | ].
  split; [ exact (proj1 (proj2 (calculateNewPrice_rule 1000 250 "add" H1000))) | ].
  split; [ | reflexivity ].
  apply (proj1 (proj2 (proj2 (calculateNewPrice_rule 1000 3 "divide" H1000))));
    discriminate.
Defined.

(** C2 as stated fails at a current price of zero: the rule (add, 5) applied
    to the price 0 yields null, not 0 + 5. *)
Lemma calculateNewPrice_zero_counterexample :
  calculateNewPrice (Some 0) "add" 5 = None /\
  calculateNewPrice (Some 0) "add" 5 <> Some (0 + 5) /\
  calculateNewPrice (Some 0) "multiply" 2 <> Some (0 * 2) /\
  calculateNewPrice (Some 0) "keep" 2 <> Some 0.
Proof. repeat split; discriminate. Qed.

(** C10: a current price equal to zero is treated like an absent price; the
    evaluator returns null whatever the action and the value. *)
Theorem calculateNewPrice_zero_is_null (p v : Q) (action : string) (Hp : p == 0) :
  calculateNewPrice (Some p) action v = None /\
  calculateNewPrice (Some p) action v = calculateNewPrice None action v.
Proof.
  unfold calculateNewPrice.
  apply falsy_number_Some in Hp. rewrite Hp. split; reflexivity.
Qed.

Lemma calculateNewPrice_zero_is_null_witness :
  calculateNewPrice (Some (0 # 7)) "multiply" (3 # 2) = None /\
  calculateNewPrice (Some (0 # 7)) "multiply" (3 # 2)
    = calculateNewPrice None "multiply" (3 # 2).
Proof.
  apply (calculateNewPrice_zero_is_null (0 # 7) (3 # 2) "multiply"). reflexivity.
Defined.

End Pricing.

(** ** Price-change classifier *)

Section Classifier.
Import PriceUpdateModal.
Local Open Scope Q_scope.

Lemma price_status_of_truthy (old new : Q) :
  ~ old == 0 -> ~ new == 0 ->
  price_status_of (Some old) (Some new) =
    match new ?= old with
    | Gt => "increased"
    | Lt => "decreased"
    | Eq => "unchanged"
    end.
Proof.
  intros Hold Hnew. unfold price_status_of.
  apply truthy_number_Some in Hold, Hnew. rewrite Hold, Hnew. simpl.
  unfold JS.gt, JS.lt. destruct (new ?= old); reflexivity.
Qed.

Lemma price_status_of_falsy (o n : option Q) :
  JS.truthy_number o = false \/ JS.truthy_number n = false ->
  price_status_of o n = "unchanged".
Proof.
  unfold price_status_of. intros [H | H]; rewrite H.
  - rewrite andb_false_r. reflexivity.
  - reflexivity.
Qed.

(** C3, as amended: the classifier yields 'unchanged' when either price is
    null or zero; for every pair of non-zero old and new prices it returns
    exactly one of increased, decreased, unchanged, by strict comparison. *)
Theorem price_status_of_classifies (old new : Q)
    (Hold : ~ old == 0) (Hnew : ~ new == 0) :
  (price_status_of (Some old) (Some new) = "increased" <-> old < new) /\
  (price_status_of (Some old) (Some new) = "decreased" <-> new < old) /\
  (price_status_of (Some old) (Some new) = "unchanged" <-> new == old) /\
  (price_status_of (Some old) (Some new) = "increased" \/
   price_status_of (Some old) (Some new) = "decreased" \/
   price_status_of (Some old) (Some new) = "unchanged") /\
  (forall o, price_status_of o None = "unchanged") /\
  (forall n, price_status_of None n = "unchanged") /\
  (forall z o, z == 0 -> price_status_of o (Some z) = "unchanged") /\
  (forall z n, z == 0 -> price_status_of (Some z) n = "unchanged").
Proof.
  rewrite (price_status_of_truthy old new Hold Hnew).
  rewrite (Qlt_alt new old), (Qeq_alt new old), (Qgt_alt new old).
  repeat split;
    try (destruct (new ?= old); (discriminate || reflexivity || tauto));
    intros; apply price_status_of_falsy; auto;
    try (left; apply falsy_number_Some; assumption);
    right; apply falsy_number_Some; assumption.
Qed.

Lemma price_status_of_classifies_witness :
  (price_status_of (Some 1000) (Some 1100) = "increased" <-> 1000 < 1100) /\
  (price_status_of (Some 1000) (Some 1100) = "decreased" <-> 1100 < 1000) /\
  (price_status_of (Some 1000) (Some 1100) = "unchanged" <-> 1100 == 1000).
Proof.
  assert (H1 : ~ 1000 == 0) by discriminate.
  assert (H2 : ~ 1100 == 0) by discriminate.
  pose proof (price_status_of_classifies 1000 1100 H1 H2) as (Hi & Hd & Hu & _).
  exact (conj Hi (conj Hd Hu)).
Defined.

(** C3 as stated fails when a non-null price is zero: [applyGlobalPricing]
    with the rule (multiply, 0) on a current price of 5 computes the new
    price 0 < 5, and the status it stores is 'unchanged', not 'decreased'. *)
Lemma price_status_of_zero_counterexample :
  let update :=
    applyGlobalPricing_update
      (mkProduct "p1" None None "X" None "A1" None (Some 5) None None None None None)
      "multiply" 0 in
  current_price
    (mkProduct "p1" None None "X" None "A1" None (Some 5) None None None None None)
    = Some 5 /\
  u_new_price update = Some (5 * 0) /\
  5 * 0 < 5 /\
  u_price_status update = "unchanged" /\
  u_price_status update <> "decreased" /\
  price_status_of (Some 5) (Some (5 * 0)) = "unchanged".
Proof. repeat split; discriminate. Qed.

(** The pricing scenario: a current price of 1000 under the rule
    (multiply, 1.1) becomes 1100 and is classified as increased. *)
Example applyGlobalPricing_scenario :
  let update :=
    applyGlobalPricing_update
      (mkProduct "p1" None None "X" None "A1" None (Some 1000) None None None None None)
      "multiply" (11 # 10) in
  u_new_price update = Some (1000 * (11 # 10)) /\
  1000 * (11 # 10) == 1100 /\
  u_price_status update = "increased".
Proof. repeat split. Qed.

End Classifier.

(** ** Article reconciler *)

Section Reconciler.
Import PriceUpdateModal.

Lemma truthy_string_Some (s : string) :
  JS.truthy_string (Some s) = bool_decide (s ≠ "").
Proof.
  simpl. destruct (String.eqb_spec s ""); simpl.
  - symmetry. apply bool_decide_eq_false. tauto.
  - symmetry. apply bool_decide_eq_true. assumption.
Qed.

Lemma articleMapping_set_lookup (m : gmap string Product) (mp : Product) (k : string) :
  articleMapping_set m mp !! k =
    if bool_decide (marketplace_article mp = Some k ∧ k ≠ "") then Some mp
    else m !! k.
Proof.
  unfold articleMapping_set.
  destruct (marketplace_article mp) as [a|] eqn:Ha.
  - rewrite truthy_string_Some.
    destruct (decide (a = k)) as [->|Hne].
    + case_bool_decide as Hk.
      * rewrite lookup_insert_eq, bool_decide_eq_true_2; [done | tauto].
      * rewrite bool_decide_eq_false_2; [done | tauto].
    + rewrite (bool_decide_eq_false_2 (Some a = Some k ∧ _)) by (intros [? ?]; congruence).
      case_bool_decide; [ by rewrite lookup_insert_ne | done ].
  - rewrite bool_decide_eq_false_2; [done | intros [? ?]; congruence].
Qed.

Lemma foldl_articleMapping_set_lookup (rows : list Product) (m : gmap string Product)
    (k : string) :
  foldl articleMapping_set m rows !! k =
    match spec_last_write_wins k rows with
    | Some winner => Some winner
    | None => m !! k
    end.
Proof.
  revert m. induction rows as [|mp rows IH]; intros m; simpl; [done|].
  rewrite IH. destruct (spec_last_write_wins k rows); [done|].
  rewrite articleMapping_set_lookup. by case_bool_decide.
Qed.

Lemma articleMapping_lookup (rows : list Product) (k : string) :
  articleMapping (Some rows) !! k = spec_last_write_wins k rows.
Proof.
  unfold articleMapping. rewrite foldl_articleMapping_set_lookup.
  destruct (spec_last_write_wins k rows); [done | apply lookup_empty].
Qed.

Lemma or_string_spec (matched : option Product) (sp : Product) :
  JS.or_string (matched ≫= name_marketplace) (name_supplier sp)
  = spec_display_name matched sp.
Proof.
  unfold spec_display_name, JS.or_string.
  destruct matched as [mp|]; simpl; [|done].
  destruct (name_marketplace mp) as [n|]; [|done].
  simpl. destruct (String.eqb_spec n ""); simpl.
  - by rewrite bool_decide_eq_true_2.
  - by rewrite bool_decide_eq_false_2.
Qed.

Lemma enrich_display_name (rows : list Product) (sp : Product) :
  display_name (enrich (articleMapping (Some rows)) sp)
  = Some (spec_display_name (spec_last_write_wins (supplier_article sp) rows) sp).
Proof.
  unfold enrich; cbn [display_name].
  by rewrite articleMapping_lookup, or_string_spec.
Qed.

Lemma enrich_unmatched (rows : list Product) (sp : Product) :
  spec_last_write_wins (supplier_article sp) rows = None →
  marketplace_article (enrich (articleMapping (Some rows)) sp) = None.
Proof.
  intros Hno. unfold enrich; cbn [marketplace_article].
  by rewrite articleMapping_lookup, Hno.
Qed.



End Reconciler.

(** ** Display sort *)

Section DisplaySort.
Import PriceUpdateModal.
Local Open Scope Z_scope.

Context {A : Type} (key : A → Z).
Let by_key (a b : A) : Z := key a - key b.
Let le_key (a b : A) : Prop := key a ≤ key b.

Lemma sort_insert_perm (cmp : A → A → Z) (x : A) (l : list A) :
  JS.sort_insert cmp x l ≡ₚ x :: l.
Proof.
  induction l as [|y l IH]; simpl; [done|].
  destruct (0 <? cmp x y); [|done].
  rewrite IH. apply Permutation_swap.
Qed.

Lemma sort_perm (cmp : A → A → Z) (l : list A) : JS.sort cmp l ≡ₚ l.
Proof.
  induction l as [|x l IH]; simpl; [done|].
  fold (JS.sort cmp l). by rewrite sort_insert_perm, IH.
Qed.

Lemma sort_insert_sorted (x : A) (l : list A) :
  StronglySorted le_key l → StronglySorted le_key (JS.sort_insert by_key x l).
Proof.
  induction 1 as [|y l Hl IH Hy]; simpl.
  - repeat constructor.
  - unfold by_key at 1. destruct (Z.ltb_spec 0 (key x - key y)) as [Hlt|Hge].
    + constructor; [exact IH|].
      rewrite sort_insert_perm. constructor; [unfold le_key; lia | exact Hy].
    + constructor; [by constructor|].
      constructor; [unfold le_key; lia|].
      eapply Forall_impl; [exact Hy|]. unfold le_key. intros; lia.
Qed.

Lemma sort_sorted (l : list A) : StronglySorted le_key (JS.sort by_key l).
Proof.
  induction l as [|x l IH]; simpl; [constructor|].
  by apply sort_insert_sorted.
Qed.

Lemma sort_insert_stable (r : Z) (x : A) (l : list A) :
  filter (λ a, key a = r) (JS.sort_insert by_key x l)
  = filter (λ a, key a = r) (x :: l).
Proof.
  induction l as [|y l IH]; simpl; [done|].
  unfold by_key at 1. destruct (Z.ltb_spec 0 (key x - key y)) as [Hlt|Hge]; [|done].
  rewrite filter_cons, IH, !filter_cons.
  repeat case_decide; (done || lia).
Qed.

Lemma sort_stable (r : Z) (l : list A) :
  filter (λ a, key a = r) (JS.sort by_key l) = filter (λ a, key a = r) l.
Proof.
  induction l as [|x l IH]; simpl; [done|].
  fold (JS.sort by_key l). by rewrite sort_insert_stable, !filter_cons, IH.
Qed.

End DisplaySort.

Section DisplaySortProducts.
Import PriceUpdateModal.
Local Open Scope Z_scope.

Lemma StronglySorted_lookup {A} (R : A → A → Prop) (l : list A) :
  StronglySorted R l →
  ∀ i j a b, (i < j)%nat → l !! i = Some a → l !! j = Some b → R a b.
Proof.
  induction 1 as [|x rest Hl IH Hx]; intros i j a b Hij Hi Hj.
  - by rewrite lookup_nil in Hi.
  - destruct j as [|j]; [lia|]. destruct i as [|i]; simpl in *.
    + injection Hi as <-. rewrite Forall_forall in Hx.
      apply Hx. eapply list_elem_of_lookup_2, Hj.
    + apply (IH i j); [lia|done..].
Qed.

Lemma StronglySorted_Forall_impl {A} (R R' : A → A → Prop) (P : A → Prop)
    (l : list A) :
  (∀ a b, P a → P b → R a b → R' a b) →
  StronglySorted R l → Forall P l → StronglySorted R' l.
Proof.
  intros Himpl. induction 1 as [|a l Hl IH Ha]; intros Hall; [constructor|].
  apply Forall_cons in Hall as [Hhead Htail]. constructor; [by apply IH|].
  rewrite Forall_forall in Ha, Htail. apply Forall_forall. intros b Hb.
  apply Himpl; auto.
Qed.

Lemma sort_insert_ext {A} (cmp cmp' : A → A → Z) (x : A) (l : list A) :
  (∀ b, b ∈ l → cmp x b = cmp' x b) →
  JS.sort_insert cmp x l = JS.sort_insert cmp' x l.
Proof.
  induction l as [|y l IH]; intros Hext; simpl; [done|].
  rewrite (Hext y) by apply list_elem_of_here.
  rewrite IH; [done|]. intros b Hb. apply Hext. by apply list_elem_of_further.
Qed.

Lemma sort_ext {A} (cmp cmp' : A → A → Z) (l : list A) :
  (∀ a b, a ∈ l → b ∈ l → cmp a b = cmp' a b) →
  JS.sort cmp l = JS.sort cmp' l.
Proof.
  induction l as [|x l IH]; intros Hext; simpl; [done|].
  fold (JS.sort cmp l). fold (JS.sort cmp' l).
  rewrite <- IH.
  - apply sort_insert_ext. intros b Hb. apply Hext; [apply list_elem_of_here|].
    apply list_elem_of_further. by rewrite <- (sort_perm cmp l).
  - intros a b Ha Hb. apply Hext; by apply list_elem_of_further.
Qed.

Lemma order_of_table (status : option string) :
  inherited status = false →
  order_of status =
    Number match status with
           | Some s =>
               if bool_decide (s = "increased") then 0
               else if bool_decide (s = "decreased") then 1
               else if bool_decide (s = "unchanged") then 2
               else if bool_decide (s = "missing") then 3
               else 4
           | None => 4
           end.
Proof.
  intros Hstatus. unfold order_of. rewrite Hstatus. unfold statusOrder.
  destruct status as [s|]; simpl; [|done].
  repeat (case_bool_decide;
          [ subst s; by simplify_map_eq
          | rewrite lookup_insert_ne by done ]).
  by rewrite lookup_empty.
Qed.

(** The number a status is ranked by, when it is ranked by one. *)
Let rank (p : Product) : Z :=
  match order_of (price_status p) with
  | Number n => n
  | Inherited => 0
  end.

Lemma order_of_rank (p : Product) :
  inherited (price_status p) = false → order_of (price_status p) = Number (rank p).
Proof. intros H. unfold rank. by rewrite (order_of_table _ H). Qed.

Lemma sortedProducts_by_rank (products : list Product) :
  Forall (λ p, inherited (price_status p) = false) products →
  sortedProducts products = JS.sort (λ a b, rank a - rank b) products.
Proof.
  intros Hstatuses. rewrite Forall_forall in Hstatuses.
  apply sort_ext. intros a b Ha Hb. unfold compareFn.
  by rewrite (order_of_rank a), (order_of_rank b) by auto.
Qed.


Lemma fetchProducts_sorted_enriched (rows : list Product)
    (marketplaceProducts : option (list Product)) :
  fetchProducts (Some rows) marketplaceProducts
  = sortedProducts (enrichedProducts rows marketplaceProducts).
Proof. by destruct rows. Qed.



End DisplaySortProducts.

(** ** Batch sync orchestrator *)

Section Orchestrator.
Import LoadingProgress.
Context `{db : Supabase.Client}.
Local Open Scope nat_scope.

(** Every update of [steps] rewrites one index and leaves the others alone. *)
Lemma update_step_alter (i : nat) (f : ProcessStep → ProcessStep) (l : list ProcessStep) :
  update_step i f l = alter f i l.
Proof.
  unfold update_step. apply list_eq. intros k.
  rewrite list_lookup_imap.
  destruct (Nat.eqb_spec k i) as [->|Hne].
  - by rewrite list_lookup_alter_eq.
  - rewrite list_lookup_alter_ne by done. by destruct (l !! k).
Qed.

Lemma same_but_progress_refl (i : nat) (w : World) : same_but_progress i w w.
Proof. repeat split; eauto 10. Qed.

Lemma same_but_progress_trans (i : nat) (w1 w2 w3 : World) :
  same_but_progress i w1 w2 → same_but_progress i w2 w3 → same_but_progress i w1 w3.
Proof.
  intros (Hl & Hne & Heq & Ho & Hc & Hn) (Hl' & Hne' & Heq' & Ho' & Hc' & Hn').
  repeat split; try congruence.
  - intros j Hj. by rewrite Hne', Hne.
  - intros x Hx. destruct (Heq x Hx) as (x' & Hx' & ? & ? & ? & ?).
    destruct (Heq' x' Hx') as (x'' & Hx'' & ? & ? & ? & ?).
    exists x''. repeat split; congruence.
Qed.

Lemma set_progress_same (i : nat) (p : Q) (w : World) :
  same_but_progress i w (setSteps (update_step i (with_progress p)) w).
Proof.
  unfold same_but_progress; simpl. rewrite update_step_alter.
  repeat split; try done.
  - apply length_alter.
  - intros j Hj. by apply list_lookup_alter_ne.
  - intros x Hx. exists (with_progress p x).
    by rewrite list_lookup_alter_eq, Hx.
Qed.

Lemma setStore_same (i : nat) (s : Supabase.Store) (w : World) :
  same_but_progress i w (setStore s w).
Proof. unfold same_but_progress; simpl. repeat split; eauto 10. Qed.

Lemma loadSupplierData_loop_same (supplierId : string) (i j : nat)
    (rest : list SampleProduct) (w : World) :
  same_but_progress i w (loadSupplierData_loop supplierId i j rest w).1.
Proof.
  revert j w. induction rest as [|product rest IH]; intros j w; simpl.
  - apply same_but_progress_refl.
  - destruct (Supabase.insert _ _) as [store' [e|]]; simpl.
    + eapply same_but_progress_trans;
        [apply set_progress_same | apply setStore_same].
    + eapply same_but_progress_trans; [|apply IH].
      eapply same_but_progress_trans;
        [apply set_progress_same | apply setStore_same].
Qed.

Lemma work_same (type : RunType) (currentStep : ProcessStep) (i : nat) (w : World) :
  same_but_progress i w (work type currentStep i w).1.
Proof.
  destruct type; simpl.
  - apply loadSupplierData_loop_same.
  - repeat (eapply same_but_progress_trans; [|apply set_progress_same]).
    apply same_but_progress_refl.
Qed.

(** What [work] throws is an [Error] whose message is not empty. *)
Lemma loadSupplierData_loop_thrown (supplierId : string) (i j : nat)
    (rest : list SampleProduct) (w : World) (e : JS.Thrown) :
  (loadSupplierData_loop supplierId i j rest w).2 = Some e → error_text e ≠ "".
Proof.
  revert j w. induction rest as [|product rest IH]; intros j w; simpl; [done|].
  destruct (Supabase.insert _ _) as [store' [err|]]; simpl.
  - intros [= <-]. simpl. discriminate.
  - apply IH.
Qed.

Lemma work_thrown (type : RunType) (currentStep : ProcessStep) (i : nat)
    (w : World) (e : JS.Thrown) :
  (work type currentStep i w).2 = Some e → error_text e ≠ "".
Proof.
  destruct type; simpl; [apply loadSupplierData_loop_thrown | done].
Qed.

Lemma iteration_spec (type : RunType) (total i : nat) (currentStep x : ProcessStep)
    (w : World) :
  steps w !! i = Some x →
  let w' := iteration type total i currentStep w in
  length (steps w') = length (steps w) ∧
  (∀ j, j ≠ i → steps w' !! j = steps w !! j) ∧
  (∃ x', steps w' !! i = Some x' ∧ id x' = id x ∧
     match (work type currentStep i (begin_step i w)).2 with
     | Some e => status x' = StatusError ∧ error x' = Some (error_text e)
     | None => status x' = StatusCompleted ∧ error x' = error x
     end) ∧
  overallProgress w' = ((JS.of_nat (i + 1) / JS.of_nat total) * 100)%Q ∧
  isCompleted w' = isCompleted w ∧
  onComplete_calls w' = onComplete_calls w.
Proof.
  intros Hx. unfold iteration.
  pose proof (work_same type currentStep i (begin_step i w)) as Hsame.
  destruct (work type currentStep i (begin_step i w)) as [w2 thrown]; simpl in *.
  destruct Hsame as (Hlen & Hne & Heq & _ & Hc & Hn).
  unfold begin_step in Hlen, Hne, Heq; simpl in Hlen, Hne, Heq.
  rewrite update_step_alter in Hlen, Hne, Heq.
  rewrite length_alter in Hlen.
  destruct (Heq (with_status StatusProcessing x)) as (x2 & Hx2 & Hid & _ & _ & Herr);
    [by rewrite list_lookup_alter_eq, Hx|].
  destruct thrown as [e|]; simpl; rewrite update_step_alter;
    (split; [by rewrite length_alter|]);
    (split; [intros j Hj;
             by rewrite list_lookup_alter_ne, Hne, list_lookup_alter_ne by done|]);
    (split; [|done]);
    rewrite list_lookup_alter_eq, Hx2; simpl; eauto.
Qed.

Lemma startProcess_loop_app (type : RunType) (total i : nat)
    (l1 l2 : list ProcessStep) (w : World) :
  startProcess_loop type total i (l1 ++ l2) w
  = startProcess_loop type total (i + length l1) l2
      (startProcess_loop type total i l1 w).
Proof.
  revert i w. induction l1 as [|x l1 IH]; intros i w; simpl.
  - by rewrite Nat.add_0_r.
  - rewrite IH. f_equal. lia.
Qed.

Section Run.
Variables (type : RunType) (suppliers marketplaces : list string).
Variable (s : Supabase.Store).
Let initial := initialSteps type suppliers marketplaces.
Let n := length initial.
Let after (k : nat) : World := after_steps type suppliers marketplaces k s.

Lemma initialSteps_pending (j : nat) (x : ProcessStep) :
  initial !! j = Some x → status x = StatusPending ∧ error x = None.
Proof.
  unfold initial, initialSteps. destruct type;
    rewrite list_lookup_fmap; destruct (_ !! j); intros [= <-]; done.
Qed.

Lemma after_steps_0 : after 0 = setSteps (λ _, initial) (mounted s).
Proof. unfold after, after_steps. by rewrite take_0. Qed.

Lemma after_steps_S (k : nat) (x : ProcessStep) :
  initial !! k = Some x → after (S k) = iteration type n k x (after k).
Proof.
  intros Hx. unfold after, after_steps. fold initial. fold n.
  rewrite (take_S_r _ _ _ Hx), startProcess_loop_app. simpl.
  rewrite length_take_le; [done|].
  apply lookup_lt_Some in Hx. lia.
Qed.

Lemma after_steps_inv (k : nat) :
  k ≤ n →
  length (steps (after k)) = n ∧
  (∀ j, k ≤ j → steps (after k) !! j = initial !! j) ∧
  (∀ j, j < k → steps (after k) !! j = steps (after (S j)) !! j) ∧
  isCompleted (after k) = false ∧
  onComplete_calls (after k) = 0.
Proof.
  induction k as [|k IH]; intros Hk.
  - rewrite after_steps_0. simpl. repeat split; try done. intros; lia.
  - destruct IH as (Hlen & Hrest & Hdone & Hc & Hn); [lia|].
    destruct (lookup_lt_is_Some_2 initial k) as [x Hx]; [fold n; lia|].
    pose proof (iteration_spec type n k x x (after k)) as Hit.
    rewrite <- (after_steps_S k x Hx) in Hit.
    destruct Hit as (Hlen' & Hne & _ & _ & Hc' & Hn'); [by rewrite Hrest|].
    repeat split; try congruence.
    + intros j Hj. rewrite Hne by lia. apply Hrest. lia.
    + intros j Hj. destruct (decide (j = k)) as [->|Hjk]; [done|].
      rewrite Hne by done. apply Hdone. lia.
Qed.

Lemma after_steps_done (j : nat) (step0 : ProcessStep) :
  initial !! j = Some step0 →
  ∃ step, steps (after (S j)) !! j = Some step ∧ id step = id step0 ∧
    match (work type step0 j (begin_step j (after j))).2 with
    | Some e => status step = StatusError ∧ error step = Some (error_text e)
    | None => status step = StatusCompleted ∧ error step = None
    end.
Proof.
  intros Hx. pose proof (lookup_lt_Some _ _ _ Hx) as Hj. fold n in Hj.
  destruct (after_steps_inv j) as (_ & Hrest & _); [lia|].
  pose proof (iteration_spec type n j step0 step0 (after j)) as Hit.
  rewrite <- (after_steps_S j step0 Hx) in Hit.
  destruct Hit as (_ & _ & (x' & Hx' & Hid & Hst) & _); [by rewrite Hrest|].
  exists x'. repeat split; try done.
  destruct (work _ _ _ _).2; [done|].
  destruct Hst as [-> ->]. split; [done|].
  by apply (initialSteps_pending j).
Qed.

Lemma count_terminal_prefix (l : list ProcessStep) (k : nat) :
  k ≤ length l →
  (∀ j x, l !! j = Some x → is_terminal x = bool_decide (j < k)) →
  length (List.filter is_terminal l) = k.
Proof.
  revert k. induction l as [|x l IH]; intros k Hk Hl; simpl in *; [lia|].
  rewrite (Hl 0 x eq_refl). destruct k as [|k].
  - rewrite bool_decide_eq_false_2 by lia. apply IH; [lia|].
    intros j y Hy. rewrite (Hl (S j) y Hy).
    by rewrite !bool_decide_eq_false_2 by lia.
  - rewrite bool_decide_eq_true_2 by lia. simpl. f_equal. apply IH; [lia|].
    intros j y Hy. rewrite (Hl (S j) y Hy).
    apply bool_decide_ext. lia.
Qed.

Lemma after_steps_terminal (k j : nat) (x : ProcessStep) :
  k ≤ n → steps (after k) !! j = Some x → is_terminal x = bool_decide (j < k).
Proof.
  intros Hk Hx. destruct (after_steps_inv k Hk) as (Hlen & Hrest & Hdone & _).
  destruct (decide (j < k)) as [Hjk|Hjk].
  - rewrite bool_decide_eq_true_2 by done.
    destruct (lookup_lt_is_Some_2 initial j) as [step0 Hstep0]; [fold n; lia|].
    destruct (after_steps_done j step0 Hstep0) as (step & Hstep & _ & Hst).
    rewrite Hdone, Hstep in Hx by done. injection Hx as <-.
    unfold is_terminal. by destruct (work _ _ _ _).2; destruct Hst as [-> _].
  - rewrite bool_decide_eq_false_2 by done.
    rewrite Hrest in Hx by lia.
    apply initialSteps_pending in Hx as [Hst _].
    unfold is_terminal. by rewrite Hst.
Qed.

Lemma completedSteps_after (k : nat) : k ≤ n → completedSteps (after k) = k.
Proof.
  intros Hk. unfold completedSteps. apply count_terminal_prefix.
  - destruct (after_steps_inv k Hk) as (-> & _). done.
  - intros j x. by apply after_steps_terminal.
Qed.

Lemma overallProgress_after (i : nat) :
  i < n →
  overallProgress (after (S i))
  = ((JS.of_nat (completedSteps (after (S i))) / JS.of_nat n) * 100)%Q.
Proof.
  intros Hi. rewrite completedSteps_after by lia.
  destruct (lookup_lt_is_Some_2 initial i) as [x Hx]; [done|].
  destruct (after_steps_inv i) as (_ & Hrest & _); [lia|].
  pose proof (iteration_spec type n i x x (after i)) as Hit.
  rewrite <- (after_steps_S i x Hx) in Hit.
  destruct Hit as (_ & _ & _ & -> & _); [by rewrite Hrest|].
  by rewrite Nat.add_1_r.
Qed.

Lemma overallProgress_after_nonzero (k : nat) :
  k ≤ n → k ≠ 0 →
  overallProgress (after k) = ((JS.of_nat k / JS.of_nat n) * 100)%Q.
Proof.
  intros Hk Hk0. destruct k as [|i]; [done|].
  rewrite overallProgress_after by lia.
  by rewrite completedSteps_after.
Qed.

Lemma run_after (onComplete : bool) :
  run type suppliers marketplaces onComplete s
  = call_onComplete onComplete (setIsCompleted true (after n)).
Proof.
  unfold run, startProcess, after, after_steps, n, initial.
  by rewrite firstn_all.
Qed.

End Run.

Lemma of_nat_ratio_full (n : nat) :
  n ≠ 0 → ((JS.of_nat n / JS.of_nat n) * 100 == 100)%Q.
Proof.
  intros Hn. field. unfold JS.of_nat, Qeq; simpl. lia.
Qed.

(** C1: in a run over a non-empty list of steps, a step whose work throws
    ends with status error and a non-empty message, a step whose work returns
    ends completed, and every step of the list is run to one of the two;
    after each step the overall progress is (terminal steps / total) * 100,
    whatever the step's outcome, and it is 100 at the end; the completion
    callback is not called before the last step is terminal and is called
    exactly once after it. *)
Theorem startProcess_isolates_failures
    (type : RunType) (suppliers marketplaces : list string)
    (onComplete : bool) (s : Supabase.Store) :
  let initial := initialSteps type suppliers marketplaces in
  let n := length initial in
  let final := run type suppliers marketplaces onComplete s in
  let after := λ k, after_steps type suppliers marketplaces k s in
  initial ≠ [] →
  (∀ i step0, initial !! i = Some step0 →
     ∃ step, steps final !! i = Some step ∧ id step = id step0 ∧
       match (work type step0 i (begin_step i (after i))).2 with
       | Some _ =>
           status step = StatusError ∧ ∃ msg, error step = Some msg ∧ msg ≠ ""
       | None => status step = StatusCompleted ∧ error step = None
       end) ∧
  length (steps final) = n ∧
  completedSteps final = n ∧
  (∀ i, i < n →
     completedSteps (after (S i)) = S i ∧
     overallProgress (after (S i))
       = ((JS.of_nat (completedSteps (after (S i))) / JS.of_nat n) * 100)%Q ∧
     isCompleted (after (S i)) = false ∧
     onComplete_calls (after (S i)) = 0) ∧
  (overallProgress final == 100)%Q ∧
  isCompleted final = true ∧
  onComplete_calls final = (if onComplete then 1 else 0).
Proof.
  cbv zeta. intros Hne.
  set (initial := initialSteps type suppliers marketplaces) in *.
  assert (Hn : length initial ≠ 0) by (destruct initial; simpl; congruence).
  pose proof (run_after type suppliers marketplaces s onComplete) as Hrun.
  fold initial in Hrun.
  assert (Hsteps : steps (run type suppliers marketplaces onComplete s)
                   = steps (after_steps type suppliers marketplaces (length initial) s))
    by (rewrite Hrun; by destruct onComplete).
  destruct (after_steps_inv type suppliers marketplaces s (length initial) (le_n _))
    as (Hlen & _ & Hdone & Hc & Hcalls).
  fold initial in Hlen, Hdone, Hc, Hcalls.
  split; [|split; [|split; [|split; [|split; [|split]]]]].
  - intros i step0 Hstep0.
    pose proof (lookup_lt_Some _ _ _ Hstep0) as Hi.
    destruct (after_steps_done type suppliers marketplaces s i step0 Hstep0)
      as (step & Hstep & Hid & Hst).
    exists step. rewrite Hsteps, Hdone by done. split; [done|]. split; [done|].
    destruct (work _ _ _ _).2 as [e|] eqn:Hthrown; [|done].
    destruct Hst as [Hstatus Herror]. split; [done|].
    exists (error_text e). split; [done|].
    by apply (work_thrown _ _ _ _ _ Hthrown).
  - by rewrite Hsteps.
  - unfold completedSteps. rewrite Hsteps.
    by apply (completedSteps_after type suppliers marketplaces s (length initial)).
  - intros i Hi.
    destruct (after_steps_inv type suppliers marketplaces s (S i) Hi)
      as (_ & _ & _ & ? & ?).
    split; [by apply completedSteps_after|].
    split; [by apply overallProgress_after|]. done.
  - assert (Hp : overallProgress (run type suppliers marketplaces onComplete s)
                 = overallProgress
                     (after_steps type suppliers marketplaces (length initial) s))
      by (rewrite Hrun; by destruct onComplete).
    rewrite Hp.
    rewrite (overallProgress_after_nonzero type suppliers marketplaces s (length initial))
      by done.
    by apply of_nat_ratio_full.
  - rewrite Hrun. by destruct onComplete.
  - rewrite Hrun. destruct onComplete; simpl; [|done].
    by rewrite Hcalls.
Qed.

End Orchestrator.

(** C1 on the scenario of three suppliers where the store rejects the rows of
    the second one. *)
Lemma startProcess_isolates_failures_witness :
  let final :=
    @LoadingProgress.run (Scenario.rejecting "S2") LoadingProgress.download
      ["S1"; "S2"; "S3"] [] true [] in
  LoadingProgress.initialSteps LoadingProgress.download ["S1"; "S2"; "S3"] [] ≠ [] ∧
  length (LoadingProgress.steps final) = 3 ∧
  LoadingProgress.completedSteps final = 3 ∧
  (LoadingProgress.overallProgress final == 100)%Q ∧
  LoadingProgress.isCompleted final = true ∧
  LoadingProgress.onComplete_calls final = 1.
Proof.
  assert (Hne : LoadingProgress.initialSteps LoadingProgress.download
                  ["S1"; "S2"; "S3"] [] ≠ []) by discriminate.
  pose proof (@startProcess_isolates_failures (Scenario.rejecting "S2")
                LoadingProgress.download ["S1"; "S2"; "S3"] [] true [] Hne)
    as (_ & Hlen & Hcount & _ & Hp & Hc & Hcalls).
  exact (conj Hne (conj Hlen (conj Hcount (conj Hp (conj Hc Hcalls))))).
Defined.

(** The same scenario evaluated: steps 1 and 3 are completed, step 2 carries
    the error of its first insert, and the progress is 100. *)
Example startProcess_three_suppliers :
  let final :=
    @LoadingProgress.run (Scenario.rejecting "S2") LoadingProgress.download
      ["S1"; "S2"; "S3"] [] true [] in
  map LoadingProgress.status (LoadingProgress.steps final)
    = [LoadingProgress.StatusCompleted; LoadingProgress.StatusError;
       LoadingProgress.StatusCompleted] ∧
  map LoadingProgress.error (LoadingProgress.steps final)
    = [None; Some "Ошибка добавления товара Товар 1: network error"; None] ∧
  (LoadingProgress.overallProgress final == 100)%Q ∧
  LoadingProgress.onComplete_calls final = 1 ∧
  length (LoadingProgress.store final) = 10.
Proof. vm_compute. repeat split; congruence. Qed.

(** ** Sandbox quota guard *)

Section QuotaGuard.
Import SandboxPage.
Local Open Scope Z_scope.

Lemma handle_within_quota (st : State) (ev : Event) :
  within_quota st → within_quota (handle st ev).
Proof.
  unfold within_quota. destruct ev as [type| | |]; simpl; try done.
  - unfold runTest. destruct (Z.leb_spec (max (testRequests st)) (used (testRequests st)));
      simpl; lia.
  - lia.
Qed.

Lemma handle_all_within_quota (evs : list Event) (st : State) :
  within_quota st → within_quota (handle_all st evs).
Proof.
  revert st. induction evs as [|ev evs IH]; intros st Hst; simpl; [done|].
  apply IH, handle_within_quota, Hst.
Qed.

Lemma runTest_denied (type : LoadingProgress.RunType) (st : State) :
  max (testRequests st) ≤ used (testRequests st) →
  runTest type st =
    mkState (testing st) (showProgress st) (testType st) (testRequests st)
      (toasts st ++ [mkToast "Лимит исчерпан" "Достигнут лимит тестовых запросов" true]).
Proof.
  intros H. unfold runTest. by rewrite (proj2 (Z.leb_le _ _) H).
Qed.

Lemma runTest_allowed (type : LoadingProgress.RunType) (st : State) :
  used (testRequests st) < max (testRequests st) →
  runTest type st =
    mkState true true type
      (mkTestRequests (used (testRequests st) + 1) (max (testRequests st)))
      (toasts st).
Proof.
  intros H. unfold runTest. by rewrite (proj2 (Z.leb_gt _ _) H).
Qed.

(** C5: a request made with used >= max is denied: the counter, the
    orchestrator's mounting and the test type stay as they were; otherwise the
    run is accepted, the orchestrator is mounted and used grows by exactly
    one, whatever the run's steps do later (its callbacks leave the counter
    alone); used never exceeds max on any sequence of events from the initial
    state; at used = max - 1 a request is accepted, used becomes max and the
    next request is denied; the reset puts used back to 0. *)
Theorem runTest_quota_guard (type next : LoadingProgress.RunType) (st : State) :
  (max (testRequests st) ≤ used (testRequests st) →
     testRequests (runTest type st) = testRequests st ∧
     run_mounted (runTest type st) = run_mounted st ∧
     testing (runTest type st) = testing st ∧
     testType (runTest type st) = testType st) ∧
  (used (testRequests st) < max (testRequests st) →
     used (testRequests (runTest type st)) = used (testRequests st) + 1 ∧
     max (testRequests (runTest type st)) = max (testRequests st) ∧
     run_mounted (runTest type st) = true ∧
     testType (runTest type st) = type) ∧
  (used (testRequests st) ≤ max (testRequests st) →
     used (testRequests (runTest type st)) ≤ max (testRequests (runTest type st))) ∧
  (used (testRequests st) = max (testRequests st) - 1 →
     used (testRequests (runTest type st)) = max (testRequests st) ∧
     testRequests (runTest next (runTest type st)) = testRequests (runTest type st)) ∧
  testRequests (onComplete st) = testRequests st ∧
  testRequests (onCancel st) = testRequests st ∧
  used (testRequests (resetTestCounter st)) = 0 ∧
  max (testRequests (resetTestCounter st)) = max (testRequests st) ∧
  (∀ evs, used (testRequests (handle_all initial evs))
          ≤ max (testRequests (handle_all initial evs))).
Proof.
  split_and!.
  - intros H. by rewrite runTest_denied.
  - intros H. by rewrite runTest_allowed.
  - unfold runTest.
    destruct (Z.leb_spec (max (testRequests st)) (used (testRequests st)));
      simpl; lia.
  - intros H. rewrite (runTest_allowed type) by lia. simpl.
    split; [lia|]. by rewrite runTest_denied by (simpl; lia).
  - done.
  - done.
  - done.
  - done.
  - intros evs.
    apply (handle_all_within_quota evs initial). unfold within_quota. simpl. lia.
Qed.

Lemma runTest_quota_guard_witness :
  let full := mkState false false LoadingProgress.download (mkTestRequests 100 100) [] in
  let last := mkState false false LoadingProgress.download (mkTestRequests 99 100) [] in
  (testRequests (runTest LoadingProgress.upload full) = testRequests full ∧
   run_mounted (runTest LoadingProgress.upload full) = false) ∧
  (used (testRequests (runTest LoadingProgress.upload last)) = 100 ∧
   testRequests (runTest LoadingProgress.download (runTest LoadingProgress.upload last))
     = testRequests (runTest LoadingProgress.upload last)) ∧
  used (testRequests (runTest LoadingProgress.upload initial)) = 0 + 1.
Proof.
  split; [|split].
  - destruct (runTest_quota_guard LoadingProgress.upload LoadingProgress.download
                (mkState false false LoadingProgress.download (mkTestRequests 100 100) []))
      as (Hdeny & _).
    destruct Hdeny as (Hreq & Hrun & _); [simpl; lia|]. exact (conj Hreq Hrun).
  - destruct (runTest_quota_guard LoadingProgress.upload LoadingProgress.download
                (mkState false false LoadingProgress.download (mkTestRequests 99 100) []))
      as (_ & _ & _ & Hlast & _).
    apply Hlast. reflexivity.
  - destruct (runTest_quota_guard LoadingProgress.upload LoadingProgress.download initial)
      as (_ & Hallow & _).
    destruct Hallow as (Hused & _); [simpl; lia|]. exact Hused.
Defined.

End QuotaGuard.

(** ** Marketplace adapter *)

Section Adapter.
Import KaspiApi.
Context `{platform : Platform}.

Lemma min1_nil (field message : string) : min1 field message = [] ↔ field ≠ "".
Proof.
  unfold min1. destruct (String.eqb_spec field ""); split; congruence.
Qed.

Lemma image_issues_nil (l : list Image) :
  flat_map (λ image, if is_url (url image) then []
                     else ["Некорректный URL изображения"]) l = []
  ↔ Forall (λ image, is_url (url image) = true) l.
Proof.
  induction l as [|image l IH]; simpl.
  - split; [constructor | done].
  - rewrite Forall_cons, <- IH.
    destruct (is_url (url image)); simpl; split; try done.
    + by intros [_ ?].
    + by intros [? _].
Qed.

Lemma ProductSchema_issues_nil (product : Product) :
  ProductSchema_issues product = [] ↔ schema_valid product.
Proof.
  unfold ProductSchema_issues, schema_valid.
  rewrite !app_nil, !min1_nil, image_issues_nil. tauto.
Qed.

Lemma ProductSchema_parse_valid (product : Product) :
  ProductSchema_parse product = Returned product ↔ schema_valid product.
Proof.
  rewrite <- ProductSchema_issues_nil. unfold ProductSchema_parse.
  destruct (ProductSchema_issues product); split; congruence.
Qed.

(** C6, as amended: [addProduct] validates the payload before any request;
    the payload passes exactly when sku, title, brand, category and
    description are non-empty and every listed image has a valid URL (the
    list may be empty; attributes are (code, value) pairs by type); a payload
    that does not pass fails with the schema's issues and sends nothing; one
    that passes sends one POST to /goods. *)
Theorem addProduct_validates_first
    (authToken : string) (product : Product) (network : list Request) :
  (ProductSchema_parse product = Returned product ↔ schema_valid product) ∧
  (¬ schema_valid product →
     ∃ issues, issues ≠ [] ∧
       addProduct authToken product network = (network, ThrewZodError issues)) ∧
  (schema_valid product →
     (addProduct authToken product network).1
     = (network ++
        [mkRequest (baseUrl ++ "/goods") "POST"
           [("X-Auth-Token", authToken);
            ("Content-Type", "application/vnd.api+json");
            ("Accept", "application/vnd.api+json")]
           (Some (JSON_stringify product))])%list).
Proof.
  split; [apply ProductSchema_parse_valid|]. split.
  - intros Hinvalid. rewrite <- ProductSchema_issues_nil in Hinvalid.
    unfold addProduct, ProductSchema_parse.
    destruct (ProductSchema_issues product) as [|issue issues]; [done|].
    by exists (issue :: issues).
  - intros Hvalid. apply ProductSchema_parse_valid in Hvalid.
    unfold addProduct. rewrite Hvalid. unfold makeRequest.
    by destruct (negb (ok _)).
Qed.

End Adapter.

Lemma addProduct_validates_first_witness :
  ¬ @KaspiApi.schema_valid Scenario.platform Scenario.phone_without_sku ∧
  ∃ issues, issues ≠ [] ∧
    @KaspiApi.addProduct Scenario.platform "token" Scenario.phone_without_sku []
    = ([], KaspiApi.ThrewZodError issues).
Proof.
  assert (Hinvalid : ¬ @KaspiApi.schema_valid Scenario.platform Scenario.phone_without_sku)
    by (intros (Hsku & _); by apply Hsku).
  split; [exact Hinvalid|].
  exact (proj1 (proj2 (@addProduct_validates_first Scenario.platform "token"
                         Scenario.phone_without_sku [])) Hinvalid).
Defined.

(** C6 as stated fails for a payload without images: its other fields being
    filled in, it passes the schema and the request is sent. *)
Lemma addProduct_no_image_counterexample :
  KaspiApi.images Scenario.phone_without_images = [] ∧
  @KaspiApi.ProductSchema_parse Scenario.platform Scenario.phone_without_images
    = KaspiApi.Returned Scenario.phone_without_images ∧
  @KaspiApi.addProduct Scenario.platform "token" Scenario.phone_without_images []
    = ([KaspiApi.mkRequest "https://kaspi.kz/shop/api/v2/goods" "POST"
          [("X-Auth-Token", "token");
           ("Content-Type", "application/vnd.api+json");
           ("Accept", "application/vnd.api+json")]
          (Some "SKU-1")],
       KaspiApi.Returned (KaspiApi.mkUploadResult "U1" "UPLOADED")).
Proof. split_and!; reflexivity. Qed.

(** ** Review gate after a download run *)

Section ReviewGate.
Import ControlPanel.

Lemma onComplete_download_manual (st : State) :
  progressType st = LoadingProgress.download →
  auto_mode_enabled (automationSettings st) = false →
  showPriceUpdateModal (onComplete st) = true ∧
  showProgress (onComplete st) = false ∧
  progressType (onComplete st) = LoadingProgress.download.
Proof.
  intros Htype Hauto. unfold onComplete. rewrite Htype, Hauto. simpl.
  by rewrite Htype.
Qed.

Lemma onComplete_no_gate (st : State) :
  progressType st = LoadingProgress.upload ∨
  auto_mode_enabled (automationSettings st) = true →
  showPriceUpdateModal (onComplete st) = showPriceUpdateModal st ∧
  showProgress (onComplete st) = false.
Proof.
  unfold onComplete. intros [Htype | Hauto].
  - by rewrite Htype.
  - rewrite Hauto. by destruct (progressType st).
Qed.

Lemma upload_starts_from_modal (st : State) (ev : Event) :
  upload_running st = false →
  upload_running (step st ev) = true →
  showPriceUpdateModal st = true ∧ ∃ ids, ev = ModalUpload ids.
Proof.
  unfold upload_running, step.
  destruct (showProgress st) eqn:Hshow; simpl.
  - intros Hdown. destruct ev; simpl; rewrite ?Hshow; simpl; try congruence.
    unfold onComplete.
    by destruct (progressType st), (auto_mode_enabled (automationSettings st)).
  - intros _. destruct ev as [| |ids| | |]; simpl; rewrite ?Hshow; simpl; try done.
    + unfold handleLoadPrices. destruct (selectedSuppliers st); simpl;
        by rewrite ?Hshow.
    + unfold handleUploadPrices. destruct (selectedSuppliers st); simpl;
        by rewrite ?Hshow.
    + destruct (showPriceUpdateModal st), (modal_in_upload_mode st);
        simpl; rewrite ?Hshow; eauto; done.
Qed.

(** C8: when a download run completes with auto mode off, the progress view
    is left and the price update review is opened, with no upload run on
    screen; from any state an upload run can only come on screen through
    the upload action of the open review; with auto mode on, completion
    opens no review. *)
Theorem onComplete_review_gate (st : State) (ev : Event) :
  (showProgress st = true →
   progressType st = LoadingProgress.download →
   auto_mode_enabled (automationSettings st) = false →
     showPriceUpdateModal (step st ProgressComplete) = true ∧
     modal_in_upload_mode (step st ProgressComplete) = false ∧
     showProgress (step st ProgressComplete) = false ∧
     upload_running (step st ProgressComplete) = false) ∧
  (upload_running st = false →
   upload_running (step st ev) = true →
     showPriceUpdateModal st = true ∧ ∃ ids, ev = ModalUpload ids) ∧
  (showProgress st = true →
   auto_mode_enabled (automationSettings st) = true →
     showPriceUpdateModal (step st ProgressComplete) = showPriceUpdateModal st ∧
     showProgress (step st ProgressComplete) = false).
Proof.
  split_and!.
  - intros Hshow Htype Hauto. unfold step. rewrite Hshow.
    destruct (onComplete_download_manual st Htype Hauto) as (Hm & Hp & Ht).
    unfold upload_running, modal_in_upload_mode. by rewrite Hm, Hp, Ht.
  - apply upload_starts_from_modal.
  - intros Hshow Hauto. unfold step. rewrite Hshow.
    apply onComplete_no_gate. by right.
Qed.

Lemma onComplete_review_gate_witness :
  let downloading :=
    mkState ["S1"] [] (mkAutomationSettings false 60) true
      LoadingProgress.download false [] in
  showPriceUpdateModal (step downloading ProgressComplete) = true ∧
  modal_in_upload_mode (step downloading ProgressComplete) = false ∧
  showProgress (step downloading ProgressComplete) = false ∧
  upload_running (step downloading ProgressComplete) = false.
Proof.
  exact (proj1 (onComplete_review_gate
                  (mkState ["S1"] [] (mkAutomationSettings false 60) true
                     LoadingProgress.download false [])
                  ProgressComplete) eq_refl eq_refl eq_refl).
Defined.

End ReviewGate.

(** ** CSV export *)

Section CsvExport.
Import KaspiPriceListDialog.

Lemma decimal_prints_integers :
  @prints_integers_in_decimal Scenario.decimal.
Proof.
  intros z _. unfold toString, Scenario.decimal, Scenario.decimal_toString.
  simpl. by rewrite Z.div_1_r.
Defined.

(** C9: the export of the single row Phone / K1 / S1 / 50000 is the byte
    order mark, that is the three bytes 239 187 191 (EF BB BF) that encode
    U+FEFF, followed by the semicolon-delimited text whose first line is the
    header and whose second line is the name between two double quotes
    (character 34) and the three other fields, given that the platform
    prints the integer 50000 in decimal. *)
Theorem handleExportToFile_one_row `{format : NumberFormat} (id : string)
    (Hformat : prints_integers_in_decimal) :
  ∃ content,
    handleExportToFile [mkKaspiProduct id "Phone" "K1" "S1" 50000] = Some content ∧
    content
    = String "239"%char (String "187"%char (String "191"%char
        ("Наименование товара;Артикул Каспи;Артикул поставщика;Цена"
         ++ String "010"%char
              (String "034"%char
                 ("Phone" ++ String "034"%char ";K1;S1;50000"))))) ∧
    lines content !! 0
      = Some (String "239"%char (String "187"%char (String "191"%char
                "Наименование товара;Артикул Каспи;Артикул поставщика;Цена"))) ∧
    lines content !! 1
      = Some (String "034"%char ("Phone" ++ String "034"%char ";K1;S1;50000")) ∧
    length (lines content) = 2.
Proof.
  eexists. split; [reflexivity|].
  unfold csvContent. simpl map.
  change (50000%Q) with (inject_Z 50000).
  rewrite Hformat by (vm_compute; reflexivity).
  vm_compute. done.
Qed.

Lemma handleExportToFile_one_row_witness :
  ∃ content,
    @handleExportToFile Scenario.decimal [mkKaspiProduct "p1" "Phone" "K1" "S1" 50000]
      = Some content ∧
    String.prefix (String "239"%char (String "187"%char (String "191"%char "")))
      content = true ∧
    lines content !! 1
      = Some (String "034"%char ("Phone" ++ String "034"%char ";K1;S1;50000")).
Proof.
  destruct (@handleExportToFile_one_row Scenario.decimal "p1" decimal_prints_integers)
    as (content & Hcontent & Hbytes & _ & Hline & _).
  exists content. split; [exact Hcontent|]. split; [|exact Hline].
  rewrite Hbytes. reflexivity.
Defined.

End CsvExport.

(** ** Sets of selected ids *)

Section SetFacts.

Lemma JSSet_has_true (s : list string) (x : string) : JSSet.has s x = true ↔ x ∈ s.
Proof. unfold JSSet.has. apply bool_decide_eq_true. Qed.

Lemma JSSet_add_elem (x y : string) (s : list string) :
  y ∈ JSSet.add x s ↔ y = x ∨ y ∈ s.
Proof.
  unfold JSSet.add, JSSet.has. case_bool_decide as Hx.
  - split; [by right|]. intros [->|?]; done.
  - rewrite elem_of_app, list_elem_of_singleton. tauto.
Qed.

Lemma JSSet_add_NoDup (x : string) (s : list string) :
  NoDup s → NoDup (JSSet.add x s).
Proof.
  intros Hs. unfold JSSet.add, JSSet.has. case_bool_decide as Hx; [done|].
  apply NoDup_app. split; [done|]. split; [|apply NoDup_singleton].
  intros y Hy Hy'. apply list_elem_of_singleton in Hy'. by subst.
Qed.

Lemma JSSet_delete_elem (x y : string) (s : list string) :
  y ∈ JSSet.delete x s ↔ y ≠ x ∧ y ∈ s.
Proof. unfold JSSet.delete. by rewrite list_elem_of_filter. Qed.

Lemma JSSet_delete_NoDup (x : string) (s : list string) :
  NoDup s → NoDup (JSSet.delete x s).
Proof. apply NoDup_filter. Qed.

Lemma JSSet_fold_add (l s : list string) :
  (NoDup s → NoDup (foldl (λ s x, JSSet.add x s) s l)) ∧
  (∀ y, y ∈ foldl (λ s x, JSSet.add x s) s l ↔ y ∈ s ∨ y ∈ l).
Proof.
  revert s. induction l as [|x l IH]; intros s; simpl.
  - split; [done|]. intros y. rewrite elem_of_nil. tauto.
  - destruct (IH (JSSet.add x s)) as [Hnd Hel]. split.
    + intros Hs. by apply Hnd, JSSet_add_NoDup.
    + intros y. rewrite Hel, JSSet_add_elem, elem_of_cons. tauto.
Qed.

Lemma JSSet_of_list_NoDup (l : list string) : NoDup (JSSet.of_list l).
Proof. apply (JSSet_fold_add l []), NoDup_nil_2. Qed.

Lemma JSSet_of_list_elem (l : list string) (y : string) :
  y ∈ JSSet.of_list l ↔ y ∈ l.
Proof.
  unfold JSSet.of_list. rewrite (proj2 (JSSet_fold_add l [])), elem_of_nil. tauto.
Qed.

End SetFacts.

(** ** The review modal's selections and its upload action *)

Section ModalSelection.
Import PriceUpdateModal PriceUpdateHandlers.

Lemma handle_modal_invariant (st : State) (ev : Event) :
  modal_invariant st → modal_invariant (handle st ev).
Proof.
  intros (Hp & Hm & Hcalls & Hclose).
  destruct ev as [m checked|ms| | | |i checked|]; simpl.
  - split_and!; try done. destruct checked;
      [by apply JSSet_add_NoDup | by apply JSSet_delete_NoDup].
  - split_and!; try done. apply JSSet_of_list_NoDup.
  - split_and!; try done. apply NoDup_nil_2.
  - split_and!; try done. apply JSSet_of_list_NoDup.
  - split_and!; try done. apply NoDup_nil_2.
  - split_and!; try done. destruct checked;
      [by apply JSSet_add_NoDup | by apply JSSet_delete_NoDup].
  - unfold handleUpload, modal_invariant.
    destruct (selectedMarketplaces st) as [|m ms] eqn:Hsel;
      [simpl; by rewrite Hsel|].
    destruct (selectedProducts st) as [|i rest] eqn:Hprod; simpl;
      rewrite ?Hsel, ?Hprod; [done|].
    split_and!; try done.
    + apply Forall_app. split; [done|]. by apply Forall_singleton.
    + rewrite length_app. simpl. lia.
Qed.

(** X5: whatever the user does in the modal from the moment it opens, every
    call of [onUpload] passes a non-empty list of distinct marketplace ids,
    and the modal is closed exactly once per such call. *)
Theorem handleUpload_passes_distinct_ids (rows : list Product) (evs : list Event) :
  Forall (λ chosen, chosen ≠ [] ∧ NoDup chosen)
    (onUpload_calls (foldl handle (opened rows) evs)) ∧
  length (onUpload_calls (foldl handle (opened rows) evs))
    = onClose_calls (foldl handle (opened rows) evs).
Proof.
  assert (Hinv : modal_invariant (foldl handle (opened rows) evs)).
  { assert (H0 : modal_invariant (opened rows))
      by (split_and!; try done; apply NoDup_nil_2).
    revert H0. generalize (opened rows).
    induction evs as [|ev evs IH]; intros st Hst; simpl; [done|].
    by apply IH, handle_modal_invariant. }
  destruct Hinv as (_ & _ & Hcalls & Hclose). done.
Qed.

Lemma handleUpload_guard (st : State) :
  (selectedMarketplaces st ≠ [] → selectedProducts st ≠ [] →
     onUpload_calls (handleUpload st)
       = (onUpload_calls st ++ [selectedMarketplaces st])%list ∧
     onClose_calls (handleUpload st) = S (onClose_calls st) ∧
     toasts (handleUpload st) = toasts st) ∧
  (selectedMarketplaces st = [] ∨ selectedProducts st = [] →
     onUpload_calls (handleUpload st) = onUpload_calls st ∧
     onClose_calls (handleUpload st) = onClose_calls st ∧
     length (toasts (handleUpload st)) = S (length (toasts st)) ∧
     selectedMarketplaces (handleUpload st) = selectedMarketplaces st ∧
     selectedProducts (handleUpload st) = selectedProducts st).
Proof.
  unfold handleUpload. split.
  - intros Hm Hp. destruct (selectedMarketplaces st) as [|m ms]; [done|].
    by destruct (selectedProducts st).
  - intros [Hm | Hp].
    + rewrite Hm. simpl. rewrite length_app. simpl. split_and!; try done. lia.
    + rewrite Hp. destruct (selectedMarketplaces st) eqn:Hsel; simpl;
        rewrite length_app, ?Hsel; simpl; split_and!; try done; lia.
Qed.

End ModalSelection.

(** ** Global pricing *)

Section GlobalPricing.
Import PriceUpdateModal PriceUpdateHandlers.
Local Open Scope Q_scope.

Lemma price_status_of_not_below (old new : Q) :
  old <= new ->
  price_status_of (Some old) (Some new) = "increased" \/
  price_status_of (Some old) (Some new) = "unchanged".
Proof.
  intros Hle. unfold price_status_of, JS.gt, JS.lt.
  destruct (JS.truthy_number (Some new) && JS.truthy_number (Some old));
    [|by right].
  destruct (new ?= old) eqn:Hcmp; [by right | | by left].
  apply Qlt_alt in Hcmp. lra.
Qed.

Lemma price_status_of_not_above (old new : Q) :
  new <= old ->
  price_status_of (Some old) (Some new) = "decreased" \/
  price_status_of (Some old) (Some new) = "unchanged".
Proof.
  intros Hle. unfold price_status_of, JS.gt, JS.lt.
  destruct (JS.truthy_number (Some new) && JS.truthy_number (Some old));
    [|by right].
  destruct (new ?= old) eqn:Hcmp; [by right | by left |].
  apply Qgt_alt in Hcmp. lra.
Qed.

Lemma price_status_of_same (old new : Q) :
  new == old -> price_status_of (Some old) (Some new) = "unchanged".
Proof.
  intros Heq. unfold price_status_of, JS.gt, JS.lt.
  destruct (JS.truthy_number (Some new) && JS.truthy_number (Some old)); [|done].
  apply Qeq_alt in Heq. by rewrite Heq.
Qed.

Lemma calculateNewPrice_unrounded (currentPrice : option Q) (action : string)
    (value : Q) :
  @Binary64.calculateNewPrice Binary64.unrounded currentPrice action value
  = calculateNewPrice currentPrice action value.
Proof. reflexivity. Qed.

Lemma to_integer_monotone : @Binary64.monotone Fixtures.to_integer.
Proof.
  intros x y Hxy. unfold Binary64.round, Fixtures.to_integer.
  rewrite <- Zle_Qle. by apply Qfloor_resp_le.
Defined.



Lemma find_product_Some (rows : list Product) (i : string) (product : Product) :
  find_product rows i = Some product -> product ∈ rows /\ id product = i.
Proof.
  unfold find_product. intros H. apply List.find_some in H as [Hin Heq].
  split; [by apply list_elem_of_In | by apply String.eqb_eq].
Qed.

Lemma find_product_None (rows : list Product) (i : string) :
  find_product rows i = None <-> ~ i ∈ map id rows.
Proof.
  unfold find_product. induction rows as [|r rows IH]; simpl.
  - split; [intros _; apply not_elem_of_nil | done].
  - rewrite not_elem_of_cons. destruct (String.eqb_spec (id r) i) as [->|Hne].
    + split; [done | tauto].
    + rewrite IH. split; [intros; split; congruence | tauto].
Qed.

Lemma find_product_unique (rows : list Product) (product : Product) :
  NoDup (map id rows) -> product ∈ rows ->
  find_product rows (id product) = Some product.
Proof.
  unfold find_product. induction rows as [|r rows IH]; simpl.
  - intros _ H. by apply elem_of_nil in H.
  - intros Hnd Hin. apply NoDup_cons in Hnd as [Hr Hnd].
    apply elem_of_cons in Hin as [->|Hin]; [by rewrite String.eqb_refl|].
    destruct (String.eqb_spec (id r) (id product)) as [Heq|Hne]; [|by apply IH].
    exfalso. apply Hr. rewrite Heq. apply list_elem_of_fmap. eauto.
Qed.

Lemma updates_cons (rows : list Product) (i : string) (selected : list string)
    (action : string) (value : Q) :
  updates rows (i :: selected) action value =
    match find_product rows i with
    | Some product =>
        applyGlobalPricing_update product action value
        :: updates rows selected action value
    | None => updates rows selected action value
    end.
Proof. unfold updates. simpl. by destruct (find_product rows i). Qed.

(** X2: the updates of [applyGlobalPricing] follow the selection: their ids
    are the selected ids that name a product of the list, in selection
    order (a selected id without a product is skipped), each update is the
    one computed from a product of the list, and distinct selected ids give
    updates of distinct ids. *)
Theorem updates_follow_selection (rows : list Product) (selected : list string)
    (action : string) (value : Q) :
  map u_id (updates rows selected action value)
    = filter (fun i => i ∈ map id rows) selected /\
  Forall (fun u => exists product,
            product ∈ rows /\ u = applyGlobalPricing_update product action value)
    (updates rows selected action value) /\
  (length (updates rows selected action value) <= length selected)%nat /\
  (NoDup selected -> NoDup (map u_id (updates rows selected action value))).
Proof.
  assert (Hids : map u_id (updates rows selected action value)
                 = filter (fun i => i ∈ map id rows) selected).
  { induction selected as [|i selected IH]; [done|].
    rewrite updates_cons, filter_cons.
    destruct (find_product rows i) as [product|] eqn:Hfind.
    - apply find_product_Some in Hfind as [Hin Hid].
      rewrite decide_True by (rewrite <- Hid; apply list_elem_of_fmap; eauto).
      cbn [map]. rewrite IH. f_equal. exact Hid.
    - apply find_product_None in Hfind. case_decide; [contradiction | exact IH]. }
  split_and!; [done| | |].
  - clear Hids. induction selected as [|i selected IH]; [constructor|].
    rewrite updates_cons.
    destruct (find_product rows i) as [product|] eqn:Hfind; [|exact IH].
    apply find_product_Some in Hfind as [Hin _]. constructor; eauto.
  - rewrite <- (length_map u_id), Hids. apply length_filter.
  - intros Hnd. rewrite Hids. by apply NoDup_filter.
Qed.

Lemma updates_follow_selection_witness :
  NoDup ["p2"; "ghost"; "p1"] /\
  map u_id (updates [Fixtures.row "p1" (Some 10); Fixtures.row "p2" None]
              ["p2"; "ghost"; "p1"] "add" 5) = ["p2"; "p1"] /\
  NoDup (map u_id (updates [Fixtures.row "p1" (Some 10); Fixtures.row "p2" None]
                     ["p2"; "ghost"; "p1"] "add" 5)).
Proof.
  assert (Hnd : NoDup ["p2"; "ghost"; "p1"])
    by (apply (bool_decide_unpack (NoDup ["p2"; "ghost"; "p1"])); reflexivity).
  destruct (updates_follow_selection
              [Fixtures.row "p1" (Some 10); Fixtures.row "p2" None]
              ["p2"; "ghost"; "p1"] "add" 5) as (_ & _ & _ & Hdistinct).
  split; [exact Hnd|]. split; [reflexivity | exact (Hdistinct Hnd)].
Defined.

Lemma applyGlobalPricing_update_ext (p q : Product) (action : string) (value : Q) :
  id p = id q -> current_price p = current_price q ->
  applyGlobalPricing_update p action value = applyGlobalPricing_update q action value.
Proof. unfold applyGlobalPricing_update. by intros -> ->. Qed.

Lemma Forall2_map_diag {A B} (P : A -> B -> Prop) (g : A -> B) (l : list A) :
  (forall x, P x (g x)) -> Forall2 P l (map g l).
Proof. intros H. induction l; simpl; constructor; auto. Qed.

Lemma patch_all_keeps_key (us : list Update) (rows : list Product) :
  Forall2 (fun r r' => id r' = id r /\ current_price r' = current_price r)
    rows (patch_all us rows).
Proof.
  unfold patch_all. revert rows. induction us as [|u us IH]; intros rows; simpl.
  - apply Forall_Forall2_diag, Forall_forall. done.
  - eapply (Forall2_trans
               (fun r r' => id r' = id r /\ current_price r' = current_price r)
               (fun r r' => id r' = id r /\ current_price r' = current_price r));
      [|apply Forall2_map_diag|apply IH].
    + intros r r' r'' [? ?] [? ?]. split; congruence.
    + intros r. simpl. by destruct (String.eqb (id r) (u_id u)).
Qed.

(** X3: with distinct product ids, the updates depend neither on the order
    of the product list nor on updates already written: recomputed from any
    reordering of the rows as they are after some updates, they are the
    same.  In particular applying the same rule again after the refetch
    sends the same updates. *)
Theorem updates_unchanged_after_update (rows rows' : list Product)
    (written : list Update) (selected : list string) (action : string) (value : Q)
    (Hdistinct : NoDup (map id rows))
    (Hrefetched : rows' ≡ₚ patch_all written rows) :
  updates rows' selected action value = updates rows selected action value.
Proof.
  pose proof (patch_all_keeps_key written rows) as Hkey.
  assert (Hids : map id (patch_all written rows) = map id rows).
  { clear -Hkey. induction Hkey as [|r r' l l' [Hid _] _ IH]; simpl; congruence. }
  assert (Hdistinct' : NoDup (map id rows')).
  { rewrite Hrefetched, Hids. exact Hdistinct. }
  unfold updates. apply list_omap_ext, Forall_Forall2_diag, Forall_forall.
  intros i _.
  destruct (find_product rows' i) as [p'|] eqn:Hfind'.
  - apply find_product_Some in Hfind' as [Hin' Hid'].
    rewrite Hrefetched in Hin'.
    apply list_elem_of_lookup in Hin' as [k Hk].
    destruct (Forall2_lookup_r _ _ _ _ _ Hkey Hk) as (r & Hr & Hidr & Hprice).
    assert (Hfind : find_product rows (id r) = Some r)
      by (apply find_product_unique; [done | by eapply list_elem_of_lookup_2]).
    rewrite <- Hid', Hidr, Hfind. f_equal.
    by apply applyGlobalPricing_update_ext.
  - apply find_product_None in Hfind'.
    rewrite Hrefetched, Hids in Hfind'.
    apply find_product_None in Hfind'. by rewrite Hfind'.
Qed.

Lemma updates_unchanged_after_update_witness :
  let rows := [Fixtures.row "p1" (Some 10); Fixtures.row "p2" (Some 20)] in
  let first := updates rows ["p2"; "p1"] "multiply" 2 in
  NoDup (map id rows) /\
  rev (patch_all first rows) ≡ₚ patch_all first rows /\
  updates (rev (patch_all first rows)) ["p2"; "p1"] "multiply" 2 = first.
Proof.
  cbv zeta.
  assert (Hnd : NoDup (map id [Fixtures.row "p1" (Some 10); Fixtures.row "p2" (Some 20)]))
    by (apply (bool_decide_unpack (NoDup ["p1"; "p2"])); reflexivity).
  assert (Hperm :
    rev (patch_all
           (updates [Fixtures.row "p1" (Some 10); Fixtures.row "p2" (Some 20)]
              ["p2"; "p1"] "multiply" 2)
           [Fixtures.row "p1" (Some 10); Fixtures.row "p2" (Some 20)])
    ≡ₚ patch_all
         (updates [Fixtures.row "p1" (Some 10); Fixtures.row "p2" (Some 20)]
            ["p2"; "p1"] "multiply" 2)
         [Fixtures.row "p1" (Some 10); Fixtures.row "p2" (Some 20)])
    by (symmetry; apply Permutation_rev).
  exact (conj Hnd (conj Hperm
           (updates_unchanged_after_update _ _ _ ["p2"; "p1"] "multiply" 2 Hnd Hperm))).
Defined.

End GlobalPricing.

(** ** Sending the updates *)

Section SendingUpdates.
Import PriceUpdateModal PriceUpdateHandlers.
Context `{table : Table}.

Lemma send_updates_app (us later : list Update) (rows : Rows) :
  send_updates (us ++ later) rows =
    match send_updates us rows with
    | (rows', Some e) => (rows', Some e)
    | (rows', None) => send_updates later rows'
    end.
Proof.
  revert rows. induction us as [|u us IH]; intros rows; simpl; [done|].
  destruct (update rows u) as [rows' [e|]]; [done | apply IH].
Qed.

(** X4: the updates are sent in order and the first error ends the loop:
    when [send_updates] fails, some update of the list is the failing one,
    all updates before it were accepted, the rows are what that failing
    call left (nothing is rolled back), and no update after it has any
    influence on the result. *)
Theorem send_updates_stops_at_first_error (us : list Update) (rows rows' : Rows)
    (e : Supabase.PostgrestError)
    (Hfailed : send_updates us rows = (rows', Some e)) :
  ∃ k u before,
    us !! k = Some u ∧
    send_updates (take k us) rows = (before, None) ∧
    update before u = (rows', Some e) ∧
    ∀ later, send_updates (take (S k) us ++ later) rows = (rows', Some e).
Proof.
  revert rows Hfailed. induction us as [|u us IH]; intros rows Hfailed;
    simpl in Hfailed; [done|].
  destruct (update rows u) as [rows1 [e1|]] eqn:Hu.
  - injection Hfailed as -> ->. exists 0, u, rows. split_and!; try done.
    intros later. simpl. by rewrite Hu.
  - destruct (IH rows1 Hfailed) as (k & u' & before & Hk & Hbefore & Hfail & Hlater).
    exists (S k), u', before. split_and!; try done.
    + simpl. by rewrite Hu.
    + intros later. simpl. rewrite Hu. apply Hlater.
Qed.

End SendingUpdates.

Lemma send_updates_stops_at_first_error_witness :
  let us :=
    PriceUpdateHandlers.updates
      [Fixtures.row "p1" (Some 10%Q); Fixtures.row "locked" (Some 20%Q);
       Fixtures.row "p2" (Some 30%Q)]
      ["p1"; "locked"; "p2"] "add" 5%Q in
  let rows :=
    [Fixtures.row "p1" (Some 10%Q); Fixtures.row "locked" (Some 20%Q);
     Fixtures.row "p2" (Some 30%Q)] in
  (@PriceUpdateHandlers.send_updates Fixtures.table_with_locked_row us rows).2
    = Some (Supabase.mkPostgrestError "row is locked") ∧
  map PriceUpdateModal.new_price
    (@PriceUpdateHandlers.send_updates Fixtures.table_with_locked_row us rows).1
    = [Some (10 + 5)%Q; None; None] ∧
  ∃ k u before,
    us !! k = Some u ∧
    @PriceUpdateHandlers.send_updates Fixtures.table_with_locked_row (take k us) rows
      = (before, None).
Proof.
  cbv zeta. split; [reflexivity|]. split; [reflexivity|].
  destruct (@send_updates_stops_at_first_error Fixtures.table_with_locked_row
              (PriceUpdateHandlers.updates
                 [Fixtures.row "p1" (Some 10%Q); Fixtures.row "locked" (Some 20%Q);
                  Fixtures.row "p2" (Some 30%Q)]
                 ["p1"; "locked"; "p2"] "add" 5%Q)
              [Fixtures.row "p1" (Some 10%Q); Fixtures.row "locked" (Some 20%Q);
               Fixtures.row "p2" (Some 30%Q)]
              _ _ eq_refl)
    as (k & u & before & Hk & Hbefore & _).
  exists k, u, before. exact (conj Hk Hbefore).
Defined.

(** ** What [fetchProducts] shows *)

Section Display.
Import PriceUpdateModal PriceUpdateHandlers.

Lemma enrich_keeps_supplier_data (mapping : gmap string Product) (sp : Product) :
  id (enrich mapping sp) = id sp ∧
  supplier_id (enrich mapping sp) = supplier_id sp ∧
  marketplace_id (enrich mapping sp) = marketplace_id sp ∧
  name_supplier (enrich mapping sp) = name_supplier sp ∧
  supplier_article (enrich mapping sp) = supplier_article sp ∧
  current_price (enrich mapping sp) = current_price sp ∧
  new_price (enrich mapping sp) = new_price sp ∧
  price_status (enrich mapping sp) = price_status sp ∧
  pricing_action (enrich mapping sp) = pricing_action sp ∧
  pricing_value (enrich mapping sp) = pricing_value sp.
Proof. by split_and!. Qed.

(** X6: the list [fetchProducts] shows holds exactly the supplier rows: it
    is a reordering of the enriched rows, the ids are those of the supplier
    rows, and enrichment changes no column of a row besides name_marketplace,
    marketplace_article and display_name.  When the marketplace query
    delivers nothing, every row is shown under its supplier name with no
    marketplace article; without supplier rows the list is empty. *)
Theorem fetchProducts_keeps_supplier_rows
    (supplierProducts : list Product) (marketplaceProducts : option (list Product)) :
  fetchProducts (Some supplierProducts) marketplaceProducts
    ≡ₚ enrichedProducts supplierProducts marketplaceProducts ∧
  map id (fetchProducts (Some supplierProducts) marketplaceProducts)
    ≡ₚ map id supplierProducts ∧
  Forall2
    (λ sp e,
       id e = id sp ∧ supplier_id e = supplier_id sp ∧
       marketplace_id e = marketplace_id sp ∧
       name_supplier e = name_supplier sp ∧
       supplier_article e = supplier_article sp ∧
       current_price e = current_price sp ∧ new_price e = new_price sp ∧
       price_status e = price_status sp ∧
       pricing_action e = pricing_action sp ∧ pricing_value e = pricing_value sp)
    supplierProducts (enrichedProducts supplierProducts marketplaceProducts) ∧
  Forall
    (λ e, marketplace_article e = None ∧ name_marketplace e = None ∧
          display_name e = Some (name_supplier e))
    (fetchProducts (Some supplierProducts) None) ∧
  fetchProducts None marketplaceProducts = [] ∧
  fetchProducts (Some []) marketplaceProducts = [].
Proof.
  assert (Hperm : ∀ mps, fetchProducts (Some supplierProducts) mps
                         ≡ₚ enrichedProducts supplierProducts mps).
  { intros mps. rewrite fetchProducts_sorted_enriched. apply sort_perm. }
  split_and!; try done.
  - rewrite Hperm. unfold enrichedProducts. rewrite map_map.
    by rewrite (map_ext _ id (λ sp, eq_refl)).
  - unfold enrichedProducts. apply Forall2_map_diag.
    intros sp. apply enrich_keeps_supplier_data.
  - rewrite (Hperm None).
    unfold enrichedProducts. apply Forall_forall. intros e He.
    apply list_elem_of_In, in_map_iff in He as (sp & <- & _).
    unfold enrich; simpl. by rewrite lookup_empty.
Qed.

Lemma enrich_ext (m1 m2 : gmap string Product) (sp : Product) :
  m1 !! supplier_article sp = m2 !! supplier_article sp → enrich m1 sp = enrich m2 sp.
Proof. unfold enrich. by intros ->. Qed.

Lemma spec_last_write_wins_filter (k : string) (P Q : Product → bool)
    (rows : list Product) :
  (∀ r, marketplace_article r = Some k → P r = Q r) →
  spec_last_write_wins k (List.filter P rows)
  = spec_last_write_wins k (List.filter Q rows).
Proof.
  intros HPQ. induction rows as [|r rows IH]; simpl; [done|].
  assert (Hskip : ∀ o : option Product,
            marketplace_article r ≠ Some k →
            match o with
            | Some winner => Some winner
            | None => if bool_decide (marketplace_article r = Some k ∧ k ≠ "")
                      then Some r else None
            end = o).
  { intros o Hr. destruct o; [done|]. by rewrite bool_decide_eq_false_2 by tauto. }
  destruct (decide (marketplace_article r = Some k)) as [Hr|Hr].
  - rewrite <- (HPQ r Hr). destruct (P r); simpl; by rewrite IH.
  - destruct (P r), (Q r); simpl; rewrite ?Hskip by done; exact IH.
Qed.

(** X7: asking the store only for the marketplace rows whose article is one
    of the suppliers' articles loses no match: the enriched list is the one
    obtained from all the rows that are linked to a marketplace. *)
Theorem marketplace_query_loses_no_match
    (table supplierProducts : list Product) :
  enrichedProducts supplierProducts
    (Some (marketplace_query table (supplierArticles supplierProducts)))
  = enrichedProducts supplierProducts
      (Some (List.filter linked_to_marketplace table)).
Proof.
  unfold enrichedProducts. apply map_ext_in. intros sp Hsp.
  apply enrich_ext. rewrite !articleMapping_lookup.
  unfold marketplace_query. apply spec_last_write_wins_filter.
  intros r Hr. unfold article_in. rewrite Hr.
  assert (Hin : JSSet.has (supplierArticles supplierProducts) (supplier_article sp) = true).
  { apply JSSet_has_true, JSSet_of_list_elem, list_elem_of_In, in_map, Hsp. }
  by rewrite Hin.
Qed.

End Display.

(** ** More on the orchestrator's runs *)

Section Runs.
Import LoadingProgress.
Context `{db : Supabase.Client}.
Local Open Scope nat_scope.

Lemma same_but_progress_store_free (i : nat) (w w' : World) (x : ProcessStep) :
  same_but_progress i w w' → steps w !! i = Some x →
  ∃ x', steps w' !! i = Some x' ∧ id x' = id x ∧ name x' = name x ∧
        status x' = status x ∧ error x' = error x.
Proof. intros (_ & _ & Heq & _) Hx. by apply Heq. Qed.

(** The step an iteration leaves at its index. *)
Lemma iteration_result (type : RunType) (total i : nat) (currentStep x : ProcessStep)
    (w : World) :
  steps w !! i = Some x →
  steps (iteration type total i currentStep w) !! i =
    Some (match (work type currentStep i (begin_step i w)).2 with
          | Some e => mkProcessStep (id x) (name x) StatusError 100 (Some (error_text e))
          | None => mkProcessStep (id x) (name x) StatusCompleted 100 (error x)
          end).
Proof.
  intros Hx. unfold iteration.
  pose proof (work_same type currentStep i (begin_step i w)) as Hsame.
  destruct (work type currentStep i (begin_step i w)) as [w2 thrown]; simpl in *.
  destruct (same_but_progress_store_free i _ _ (with_status StatusProcessing x) Hsame)
    as (x2 & Hx2 & Hid & Hname & _ & Herr).
  { unfold begin_step; simpl. by rewrite update_step_alter, list_lookup_alter_eq, Hx. }
  destruct thrown as [e|]; simpl; rewrite update_step_alter, list_lookup_alter_eq, Hx2;
    simpl; unfold with_error, with_progress, with_status; simpl;
    by rewrite Hid, Hname, ?Herr.
Qed.

Lemma run_steps_lookup (type : RunType) (suppliers marketplaces : list string)
    (onComplete : bool) (s : Supabase.Store) (i : nat) (x0 : ProcessStep) :
  initialSteps type suppliers marketplaces !! i = Some x0 →
  steps (run type suppliers marketplaces onComplete s) !! i =
    Some (match (work type x0 i
                   (begin_step i (after_steps type suppliers marketplaces i s))).2 with
          | Some e => mkProcessStep (id x0) (name x0) StatusError 100 (Some (error_text e))
          | None => mkProcessStep (id x0) (name x0) StatusCompleted 100 None
          end).
Proof.
  intros Hx0. pose proof (lookup_lt_Some _ _ _ Hx0) as Hi.
  assert (Hsteps : steps (run type suppliers marketplaces onComplete s)
                   = steps (after_steps type suppliers marketplaces
                              (length (initialSteps type suppliers marketplaces)) s))
    by (rewrite run_after; by destruct onComplete).
  destruct (after_steps_inv type suppliers marketplaces s
              (length (initialSteps type suppliers marketplaces)) (le_n _))
    as (_ & _ & Hdone & _).
  destruct (after_steps_inv type suppliers marketplaces s i) as (_ & Hrest & _); [lia|].
  rewrite Hsteps, Hdone by done.
  rewrite (after_steps_S type suppliers marketplaces s i x0 Hx0).
  rewrite (iteration_result _ _ _ _ x0) by (by rewrite Hrest).
  destruct (initialSteps_pending type suppliers marketplaces s i x0 Hx0) as [_ ->].
  done.
Qed.

Lemma run_steps_length (type : RunType) (suppliers marketplaces : list string)
    (onComplete : bool) (s : Supabase.Store) :
  length (steps (run type suppliers marketplaces onComplete s))
  = length (initialSteps type suppliers marketplaces).
Proof.
  destruct (after_steps_inv type suppliers marketplaces s
              (length (initialSteps type suppliers marketplaces)) (le_n _))
    as (Hlen & _).
  rewrite run_after. by destruct onComplete.
Qed.

(** X8: at the end of a run every step still carries the id and the name it
    was created with, in the order of the targets, its progress is 100
    whether it completed or failed, and its status is completed or error. *)
Theorem run_final_steps (type : RunType) (suppliers marketplaces : list string)
    (onComplete : bool) (s : Supabase.Store) :
  Forall2
    (λ x0 x, id x = id x0 ∧ name x = name x0 ∧ progress x = 100%Q ∧
             (status x = StatusCompleted ∨ status x = StatusError))
    (initialSteps type suppliers marketplaces)
    (steps (run type suppliers marketplaces onComplete s)) ∧
  map id (steps (run type suppliers marketplaces onComplete s))
    = match type with download => suppliers | upload => marketplaces end.
Proof.
  assert (Hall : Forall2
    (λ x0 x, id x = id x0 ∧ name x = name x0 ∧ progress x = 100%Q ∧
             (status x = StatusCompleted ∨ status x = StatusError))
    (initialSteps type suppliers marketplaces)
    (steps (run type suppliers marketplaces onComplete s))).
  { apply Forall2_same_length_lookup_2; [by rewrite run_steps_length|].
    intros i x0 x Hx0 Hx.
    rewrite (run_steps_lookup _ _ _ _ _ _ _ Hx0) in Hx. injection Hx as <-.
    destruct (work _ _ _ _).2; simpl; auto. }
  split; [exact Hall|].
  transitivity (map id (initialSteps type suppliers marketplaces)).
  - clear -Hall. induction Hall as [|x0 x l0 l (Hid & _) _ IH]; simpl; congruence.
  - unfold initialSteps. destruct type; rewrite map_map; simpl; apply map_id.
Qed.

(** X9: a run over no target ends at once: there is no step, the overall
    progress stays 0, the store is not touched, and completion is signalled
    once. *)
Theorem run_without_targets (type : RunType) (suppliers marketplaces : list string)
    (onComplete : bool) (s : Supabase.Store)
    (Hempty : match type with download => suppliers | upload => marketplaces end = []) :
  steps (run type suppliers marketplaces onComplete s) = [] ∧
  overallProgress (run type suppliers marketplaces onComplete s) = 0%Q ∧
  store (run type suppliers marketplaces onComplete s) = s ∧
  isCompleted (run type suppliers marketplaces onComplete s) = true ∧
  onComplete_calls (run type suppliers marketplaces onComplete s)
    = (if onComplete then 1 else 0).
Proof.
  assert (Hinit : initialSteps type suppliers marketplaces = [])
    by (unfold initialSteps; destruct type; by rewrite Hempty).
  unfold run. rewrite Hinit. by destruct onComplete.
Qed.

Lemma startProcess_loop_upload_store (total i : nat) (rest : list ProcessStep)
    (w : World) :
  store (startProcess_loop upload total i rest w) = store w.
Proof.
  revert i w. induction rest as [|x rest IH]; intros i w; simpl; [done|].
  by rewrite IH.
Qed.

(** X10: an upload run never writes to the store and cannot fail: every
    step ends completed, without an error text. *)
Theorem upload_run_completes (suppliers marketplaces : list string)
    (onComplete : bool) (s : Supabase.Store) :
  store (run upload suppliers marketplaces onComplete s) = s ∧
  Forall (λ x, status x = StatusCompleted ∧ error x = None)
    (steps (run upload suppliers marketplaces onComplete s)) ∧
  length (steps (run upload suppliers marketplaces onComplete s))
    = length marketplaces.
Proof.
  split_and!.
  - unfold run, startProcess. destruct onComplete; simpl;
      by rewrite startProcess_loop_upload_store.
  - apply Forall_lookup. intros i x Hx.
    destruct (lookup_lt_is_Some_2 (initialSteps upload suppliers marketplaces) i)
      as [x0 Hx0].
    { rewrite <- (run_steps_length upload suppliers marketplaces onComplete s).
      by eapply lookup_lt_Some. }
    rewrite (run_steps_lookup _ _ _ _ _ _ _ Hx0) in Hx. by injection Hx as <-.
  - rewrite run_steps_length. unfold initialSteps. apply length_map.
Qed.

End Runs.

Lemma run_without_targets_witness :
  let final :=
    @LoadingProgress.run (Scenario.rejecting "S2") LoadingProgress.download
      [] ["kaspi"] true [] in
  LoadingProgress.steps final = [] ∧
  LoadingProgress.overallProgress final = 0%Q ∧
  LoadingProgress.onComplete_calls final = 1.
Proof.
  destruct (@run_without_targets (Scenario.rejecting "S2") LoadingProgress.download
              [] ["kaspi"] true [] eq_refl) as (Hsteps & Hprogress & _ & _ & Hcalls).
  exact (conj Hsteps (conj Hprogress Hcalls)).
Defined.

(** ** What a download run inserts *)

Section Inserts.
Import LoadingProgress.
Context `{db : Supabase.Client}.
Local Open Scope nat_scope.

Abbreviation RWorld := (@World (Recording.client db)).

Lemma recording_loop (supplierId : string) (i j : nat) (rest : list SampleProduct)
    (w : RWorld) :
  ∃ k, k ≤ length rest ∧ (rest ≠ [] → 1 ≤ k) ∧
    Recording.log (store (loadSupplierData_loop supplierId i j rest w).1)
      = (Recording.log (store w)
         ++ map (Recording.row_of supplierId) (take k rest))%list ∧
    (Recording.never_rejects →
       k = length rest ∧ (loadSupplierData_loop supplierId i j rest w).2 = None).
Proof.
  revert j w. induction rest as [|product rest IH]; intros j w.
  - exists 0. simpl. rewrite app_nil_r. by split_and!.
  - cbn [loadSupplierData_loop]. cbn [Supabase.insert Recording.client].
    cbn [store setSteps fst snd].
    destruct (@Supabase.insert db (store w).1 _) as [s' [e|]] eqn:Hins.
    + exists 1. cbn. split_and!; try done; try lia.
      intros Hnever. specialize (Hnever (store w).1
        (Supabase.mkProductInsert supplierId (article product)
           (sample_name product) (price product) "multiply" 1)).
      rewrite Hins in Hnever. done.
    + match goal with
      | |- context [loadSupplierData_loop _ _ (S j) rest ?w'] =>
          destruct (IH (S j) w') as (k & Hk & _ & Hlog & Hnever)
      end.
      exists (S k). simpl length. split_and!; try lia.
      * etransitivity; [exact Hlog|].
        unfold Recording.log. cbn. by rewrite <- app_assoc.
      * intros Hn. destruct (Hnever Hn) as [-> Hnone]. split; [done|exact Hnone].
Qed.

Lemma recording_iteration (total i : nat) (currentStep : ProcessStep) (w : RWorld) :
  ∃ k, 1 ≤ k ≤ length sampleProducts ∧
    Recording.log (store (iteration download total i currentStep w))
      = (Recording.log (store w)
         ++ take k (Recording.rows_for (id currentStep)))%list ∧
    (Recording.never_rejects → k = length sampleProducts).
Proof.
  destruct (recording_loop (id currentStep) i 0 sampleProducts (begin_step i w))
    as (k & Hk & Hpos & Hlog & Hnever).
  exists k. split_and!; [by apply Hpos | done | | by intros Hn; apply Hnever].
  unfold iteration, work, loadSupplierData.
  destruct (loadSupplierData_loop _ _ _ _ _) as [w2 thrown]; simpl in *.
  unfold Recording.rows_for. rewrite firstn_map, <- Hlog.
  by destruct thrown.
Qed.

Lemma recording_run_loop (total i : nat) (rest : list ProcessStep) (w : RWorld) :
  ∃ counts,
    length counts = length rest ∧
    Forall (λ k, 1 ≤ k ≤ length sampleProducts) counts ∧
    Recording.log (store (startProcess_loop download total i rest w))
      = (Recording.log (store w)
         ++ concat (zip_with (λ x k, take k (Recording.rows_for (id x))) rest counts))%list ∧
    (Recording.never_rejects →
       Recording.log (store (startProcess_loop download total i rest w))
       = (Recording.log (store w)
          ++ concat (map (λ x, Recording.rows_for (id x)) rest))%list).
Proof.
  revert i w. induction rest as [|x rest IH]; intros i w.
  - exists []. simpl. rewrite app_nil_r. by split_and!.
  - destruct (recording_iteration total i x w) as (k & Hk & Hlog & Hnever).
    destruct (IH (S i) (iteration download total i x w))
      as (counts & Hlen & Hcounts & Hlogs & Hnevers).
    exists (k :: counts). simpl. split_and!.
    + by rewrite Hlen.
    + by constructor.
    + by rewrite Hlogs, Hlog, <- app_assoc.
    + intros Hn. by rewrite (Hnevers Hn), Hlog, (Hnever Hn), <- app_assoc.
Qed.


End Inserts.


(** ** The sandbox counter *)

Section SandboxCounter.
Import SandboxPage SandboxCounting.
Local Open Scope Z_scope.

Lemma requests_since_reset_from (st : State) (evs : list Event) (n : Z) :
  0 ≤ n → 0 ≤ max (testRequests st) →
  used (testRequests st) = Z.min (max (testRequests st)) n →
  used (testRequests (handle_all st evs))
    = Z.min (max (testRequests st))
        (foldl (λ n ev, match ev with
                        | RunTest _ => n + 1
                        | ResetTestCounter => 0
                        | OnCancel | OnComplete => n
                        end) n evs) ∧
  max (testRequests (handle_all st evs)) = max (testRequests st).
Proof.
  revert st n. induction evs as [|ev evs IH]; intros st n Hn Hmax Hused; simpl;
    [done|].
  destruct ev as [type| | |]; simpl.
  - assert (Hrun : used (testRequests (runTest type st))
                   = Z.min (max (testRequests st)) (n + 1)
                   ∧ max (testRequests (runTest type st)) = max (testRequests st)).
    { unfold runTest.
      destruct (Z.leb_spec (max (testRequests st)) (used (testRequests st)));
        simpl; lia. }
    destruct Hrun as [Hu Hm].
    assert (Hn1 : 0 ≤ n + 1) by lia.
    assert (Hmax1 : 0 ≤ max (testRequests (runTest type st))) by (by rewrite Hm).
    assert (Hused1 : used (testRequests (runTest type st))
                     = Z.min (max (testRequests (runTest type st))) (n + 1))
      by (by rewrite Hm).
    destruct (IH (runTest type st) (n + 1) Hn1 Hmax1 Hused1) as [Hu' Hm'].
    by rewrite Hu', Hm', Hm.
  - assert (Hused0 : used (testRequests (resetTestCounter st))
                     = Z.min (max (testRequests (resetTestCounter st))) 0)
      by (simpl; lia).
    destruct (IH (resetTestCounter st) 0 (Z.le_refl 0) Hmax Hused0) as [Hu' Hm'].
    by rewrite Hu', Hm'.
  - destruct (IH (onCancel st) n Hn Hmax Hused) as [Hu' Hm']. by rewrite Hu', Hm'.
  - destruct (IH (onComplete st) n Hn Hmax Hused) as [Hu' Hm']. by rewrite Hu', Hm'.
Qed.

(** X12: at every moment the sandbox counter shows the number of test
    requests made since the last reset, capped at the limit of 100; the
    limit itself never changes. *)
Theorem used_counts_requests (evs : list Event) :
  used (testRequests (handle_all initial evs))
    = Z.min 100 (requests_since_reset evs) ∧
  max (testRequests (handle_all initial evs)) = 100.
Proof.
  apply (requests_since_reset_from initial evs 0); simpl; lia.
Qed.

End SandboxCounter.

(** ** The sandbox page with the marketplace products test *)

Section Sandbox2.
Import SandboxPage2.
Local Open Scope Z_scope.

Lemma step_invariant (st : State) (ev : Event) : invariant st → invariant (step st ev).
Proof.
  intros (Hq & Ht & Hm). unfold step, invariant.
  destruct (showProgress st) eqn:Hshow.
  - destruct ev; simpl; rewrite ?Hshow; split_and!; intros; try done; try lia; eauto.
  - destruct ev as [type| |value| |]; simpl; rewrite ?Hshow;
      try (split_and!; intros; try done; try lia; eauto; fail).
    unfold runTest.
    destruct (Z.leb_spec (SandboxPage.max (testRequests st))
                (SandboxPage.used (testRequests st)));
      [simpl; rewrite ?Hshow; split_and!; intros; try done; lia|].
    destruct type; simpl; try (split_and!; intros; try done; lia).
    destruct (String.eqb_spec (selectedMarketplace st) ""); simpl;
      rewrite ?Hshow; split_and!; intros; try done; lia.
Qed.

(** X13: on the page with the marketplace products test, whatever the user
    does: the counter stays within the limit, [testing] holds exactly while
    a run is shown, and a marketplace products run is never shown without a
    selected marketplace. *)
Theorem sandbox2_invariant (marketplaces : list string) (evs : list Event) :
  let st := foldl step (initial marketplaces) evs in
  0 ≤ SandboxPage.used (testRequests st) ≤ SandboxPage.max (testRequests st) ∧
  testing st = showProgress st ∧
  (showProgress st = true → testType st = marketplace_products →
   selectedMarketplace st ≠ "").
Proof.
  change (invariant (foldl step (initial marketplaces) evs)).
  assert (H0 : invariant (initial marketplaces))
    by (split_and!; simpl; (lia || done)).
  revert H0. generalize (initial marketplaces).
  induction evs as [|ev evs IH]; intros st Hst; simpl; [done|].
  by apply IH, step_invariant.
Qed.

End Sandbox2.

(** ** The orders of the marketplace adapter *)

Section Orders.
Import KaspiOrders.
Local Open Scope nat_scope.

Lemma member_app (key : string) (l1 l2 : list (string * JSON)) :
  member key (l1 ++ l2)%list
  = match member key l2 with Some v => Some v | None => member key l1 end.
Proof.
  induction l1 as [|[k v] l1 IH]; simpl.
  - by destruct (member key l2).
  - rewrite IH. by destruct (member key l2), (member key l1).
Qed.

Lemma member_filter (P : string → bool) (key : string) (l : list (string * JSON)) :
  P key = true →
  member key (List.filter (λ kv, P kv.1) l) = member key l.
Proof.
  intros HP. induction l as [|[k v] l IH]; simpl; [done|].
  destruct (P k) eqn:Hk; simpl; rewrite IH; [done|].
  destruct (String.eqb_spec k key) as [->|]; [congruence|].
  by destruct (member key l).
Qed.

Lemma mapM_entry_json (es : list OrderEntry) :
  mapM OrderEntrySchema_parse (map entry_json es) = Some es.
Proof.
  apply mapM_Some. induction es as [|e es IH]; simpl; constructor; [|done].
  by destruct e as [? ? ? ? [w|] ? ? ? ? ? ?].
Qed.

(** X14: every order has a JSON form that [OrderSchema] reads back as the
    same order: the members of the schema, with a missing total price or
    date left out, and the entries written the same way. *)
Theorem OrderSchema_parse_round_trip (o : Order) :
  OrderSchema_parse (order_json o) = Some o.
Proof.
  destruct o as [id code status entries [p|] [d|]];
    unfold OrderSchema_parse, order_json; cbn -[mapM entry_json];
    by rewrite mapM_entry_json.
Qed.

(** X15: members the schema does not name are ignored, wherever they stand
    in the object: an order entry is read as if they were not there. *)
Theorem OrderEntrySchema_ignores_unknown_members (members : list (string * JSON)) :
  OrderEntrySchema_parse (JObject members)
  = OrderEntrySchema_parse
      (JObject (List.filter (λ kv, is_entry_key kv.1) members)).
Proof.
  unfold OrderEntrySchema_parse.
  by rewrite !(member_filter is_entry_key) by reflexivity.
Qed.

(** X16: an optional member may be missing, but it may not be null: an
    order entry whose weight is null is rejected, whatever else it holds. *)
Theorem OrderEntrySchema_rejects_null_weight (members : list (string * JSON))
    (Hnull : member "weight" members = Some JNull) :
  OrderEntrySchema_parse (JObject members) = None.
Proof.
  unfold OrderEntrySchema_parse. rewrite Hnull.
  destruct (z_string (member "id" members)); [|done].
  destruct (z_string (member "unitType" members)); [|done].
  destruct (z_number (member "quantity" members)); [|done].
  by destruct (z_number (member "totalPrice" members)).
Qed.

Lemma OrderEntrySchema_rejects_null_weight_witness :
  let members := [("id", JString "1"); ("weight", JNull)] in
  member "weight" members = Some JNull ∧
  OrderEntrySchema_parse (JObject members) = None.
Proof.
  split; [reflexivity|].
  apply (OrderEntrySchema_rejects_null_weight
           [("id", JString "1"); ("weight", JNull)]).
  reflexivity.
Defined.

Section Parsing.
Context {A : Type} (schema : JSON → option A).

Lemma parse_all_returned (items : list JSON) (k : nat) (parsed : list A) :
  parse_all schema k items = Returned parsed
  ↔ Forall2 (λ item a, schema item = Some a) items parsed.
Proof.
  revert k parsed. induction items as [|item items IH]; intros k parsed; simpl.
  - split.
    + intros [= <-]. constructor.
    + intros H. by inversion H.
  - destruct (schema item) as [a|] eqn:Ha.
    + destruct (parse_all schema (S k) items) as [l| | | |i] eqn:Hrest.
      * split.
        -- intros [= <-]. constructor; [done|]. by apply (IH (S k)).
        -- intros H. inversion H as [|? b ? l' Hb Hl]; subst.
           apply (IH (S k)) in Hl. congruence.
      * split; [done|]. intros H. inversion H as [|? b ? l' Hb Hl]; subst.
        apply (IH (S k)) in Hl. congruence.
      * split; [done|]. intros H. inversion H as [|? b ? l' Hb Hl]; subst.
        apply (IH (S k)) in Hl. congruence.
      * split; [done|]. intros H. inversion H as [|? b ? l' Hb Hl]; subst.
        apply (IH (S k)) in Hl. congruence.
      * split; [done|]. intros H. inversion H as [|? b ? l' Hb Hl]; subst.
        apply (IH (S k)) in Hl. congruence.
    + split; [done|]. intros H. inversion H; congruence.
Qed.

(** [first_failure i items]: item [i] does not parse and every item before
    it does. *)
Lemma parse_all_threw (items : list JSON) (k i : nat) :
  parse_all schema k items = ThrewZodError i
  ↔ ∃ j item, i = k + j ∧ items !! j = Some item ∧ schema item = None ∧
      ∀ j' item', j' < j → items !! j' = Some item' → schema item' ≠ None.
Proof.
  revert k i. induction items as [|item items IH]; intros k i; simpl.
  - split; [done|]. by intros (j & item & _ & ? & _).
  - destruct (schema item) as [a|] eqn:Ha.
    + assert (Hstep : parse_all schema (S k) items = ThrewZodError i
                      ↔ match parse_all schema (S k) items with
                        | Returned parsed => Returned (a :: parsed)
                        | thrown => thrown
                        end = ThrewZodError i)
        by (by destruct (parse_all schema (S k) items)).
      rewrite <- Hstep, (IH (S k)). split.
      * intros (j & it & -> & Hj & Hnone & Hbefore).
        exists (S j), it. split_and!; [lia|done|done|].
        intros [|j'] it' Hlt; simpl; [congruence|].
        apply Hbefore. lia.
      * intros ([|j] & it & -> & Hj & Hnone & Hbefore); simpl in Hj.
        { congruence. }
        exists j, it. split_and!; [lia|done|done|].
        intros j' it' Hlt Hj'. apply (Hbefore (S j') it'); [lia|done].
    + split.
      * intros [= <-]. exists 0, item. split_and!; [lia|done|done|].
        intros; lia.
      * intros ([|j] & it & -> & Hj & Hnone & Hbefore); [f_equal; lia|].
        destruct (Hbefore 0 item); [lia|done|done].
Qed.

Lemma parse_all_outcome (items : list JSON) (k : nat) :
  (∃ parsed, parse_all schema k items = Returned parsed)
  ∨ (∃ i, parse_all schema k items = ThrewZodError i).
Proof.
  revert k. induction items as [|item items IH]; intros k; simpl; [eauto|].
  destruct (schema item); [|eauto].
  destruct (IH (S k)) as [[l ->]|[i ->]]; eauto.
Qed.

End Parsing.

(** X17: [getOrders] sends one GET request without a body.  A response that
    is not ok is thrown as an error.  With an ok response that lists orders,
    the call returns all of them, in the order of the list, when every one
    of them is read by the schema; otherwise it returns none and throws at
    the first order the schema rejects. *)
Theorem getOrders_all_or_nothing `{platform : Platform} (authToken : string)
    (params : OrdersParams) (network : list KaspiApi.Request) :
  ∃ request,
    let response := fetch request in
    let result := (getOrders authToken params network).2 in
    (getOrders authToken params network).1 = (network ++ [request])%list ∧
    KaspiApi.request_method request = "GET" ∧
    KaspiApi.request_body request = None ∧
    (ok response = false →
     result = ThrewApiError ("Kaspi API Error " ++ pretty (response_status response)
                             ++ ": " ++ response_text response)) ∧
    (∀ members items,
       ok response = true →
       response_json response = Some (JObject members) →
       member "data" members = Some (JArray items) →
       (∀ orders, result = Returned orders
                  ↔ Forall2 (λ item o, OrderSchema_parse item = Some o) items orders) ∧
       (∀ i, result = ThrewZodError i
             ↔ ∃ item, items !! i = Some item ∧ OrderSchema_parse item = None ∧
                 ∀ j item', j < i → items !! j = Some item' →
                            OrderSchema_parse item' ≠ None) ∧
       ((∃ orders, result = Returned orders) ∨ (∃ i, result = ThrewZodError i))).
Proof.
  set (queryString := URLSearchParams_toString (query_of params)).
  exists (KaspiApi.mkRequest
            (KaspiApi.baseUrl ++ "/orders"
             ++ (if JS.truthy_string (Some queryString)
                 then "?" ++ queryString else ""))
            "GET"
            [("X-Auth-Token", authToken);
             ("Content-Type", "application/vnd.api+json");
             ("Accept", "application/vnd.api+json")]
            None).
  unfold getOrders, makeRequest. fold queryString. cbv zeta.
  set (response := fetch _).
  split_and!; [| reflexivity | reflexivity | |].
  - destruct (ok response); simpl; [|done].
    by destruct (response_json response).
  - intros Hok. by rewrite Hok.
  - intros members items Hok Hjson Hdata. rewrite Hok, Hjson. simpl.
    rewrite Hdata. split_and!.
    + intros orders. apply parse_all_returned.
    + intros i. rewrite parse_all_threw. split.
      * intros (j & item & -> & ? & ? & ?). by exists item.
      * intros (item & ? & ? & ?). by exists i, item.
    + apply parse_all_outcome.
Qed.

(** A list of two orders whose second has no code: none is returned.  A
    page size of zero is left out of the query. *)
Example getOrders_second_order_rejected :
  let body :=
    JObject [("data", JArray [order_json Fixtures.order_1;
                              JObject [("id", JString "2")]])] in
  @getOrders (Fixtures.answering body) "token"
    (mkOrdersParams None None (Some 2%N) (Some 0%N)) []
  = ([KaspiApi.mkRequest "https://kaspi.kz/shop/api/v2/orders?page=2" "GET"
        [("X-Auth-Token", "token");
         ("Content-Type", "application/vnd.api+json");
         ("Accept", "application/vnd.api+json")] None],
     ThrewZodError 1).
Proof. vm_compute. reflexivity. Qed.

(** X18: an operation that returns nothing still reads the body of the
    response: it sends its one request, and it succeeds exactly when the
    response is ok and its body is JSON.  An ok response with a body that is
    not JSON, an empty one for instance, makes the call throw after the
    request has gone out. *)
Theorem perform_needs_json_body `{platform : Platform} (authToken : string)
    (op : Operation) (body : option string) (network : list KaspiApi.Request) :
  let request :=
    KaspiApi.mkRequest (KaspiApi.baseUrl ++ endpoint_of op) (method_of op)
      [("X-Auth-Token", authToken);
       ("Content-Type", "application/vnd.api+json");
       ("Accept", "application/vnd.api+json")] body in
  let result := (perform authToken op body network).2 in
  (perform authToken op body network).1 = (network ++ [request])%list ∧
  (result = Returned tt
   ↔ ok (fetch request) = true ∧ is_Some (response_json (fetch request))) ∧
  (ok (fetch request) = true → response_json (fetch request) = None →
   result = ThrewSyntaxError).
Proof.
  cbv zeta. unfold perform, makeRequest. cbv zeta.
  destruct (ok (fetch _)) eqn:Hok; simpl.
  - destruct (response_json (fetch _)) as [json|] eqn:Hjson; simpl.
    + split_and!; [done| |done]. split; [eauto|done].
    + split_and!; [done| |done]. split; [done|]. by intros [_ [? ?]].
  - split_and!; [done| |done]. split; [done|]. by intros [? _].
Qed.

End Orders.

(** ** The check boxes of the control panel *)

Section PanelSelection.
Import ControlPanel ControlPanelSelection.
Local Open Scope nat_scope.

Lemma includes_In (ids : list string) (id : string) :
  includes ids id = true ↔ In id ids.
Proof.
  unfold includes. rewrite existsb_exists. split.
  - intros (x & Hx & Heq). apply String.eqb_eq in Heq. by subst.
  - intros Hin. exists id. split; [done|]. apply String.eqb_refl.
Qed.

Lemma NoDup_filter_list {A} (f : A → bool) (l : list A) :
  NoDup l → NoDup (List.filter f l).
Proof.
  induction 1 as [|x l Hx Hl IH]; simpl; [constructor|].
  destruct (f x); [|done]. constructor; [|done].
  intros Hin. apply Hx. apply list_elem_of_In. apply list_elem_of_In in Hin.
  by apply filter_In in Hin as [? _].
Qed.

Lemma handleSupplierSelect_invariant (page : Page) (supplierId : string) :
  invariant page →
  showProgress (panel page) = false →
  includes (suppliers page) supplierId = true →
  invariant
    (mkPage (suppliers page) (marketplaces page)
       (handleSupplierSelect supplierId
          (negb (includes (selectedSuppliers (panel page)) supplierId))
          (panel page))).
Proof.
  intros (Hnodup & Hsub & Hrun) Hshow Hlisted. unfold invariant. simpl.
  rewrite Hshow. split_and!; [| |done].
  - destruct (includes (selectedSuppliers (panel page)) supplierId) eqn:Hin; simpl.
    + by apply NoDup_filter_list.
    + apply NoDup_app. split_and!; [done| |apply NoDup_singleton].
      intros x Hx ->%list_elem_of_singleton.
      apply list_elem_of_In, includes_In in Hx. congruence.
  - intros id.
    destruct (includes (selectedSuppliers (panel page)) supplierId); simpl.
    + intros [Hid _]%filter_In. by apply Hsub.
    + intros [Hid|[<-|[]]]%in_app_or; [by apply Hsub|by apply includes_In].
Qed.

Lemma step_keeps_invariant (page : Page) (ev : Event) :
  invariant page → invariant (step page ev).
Proof.
  intros Hinv. destruct ev as [supplierId|marketplaceId|ev]; unfold step; cbv zeta.
  - destruct (showProgress (panel page)) eqn:Hshow; simpl; [done|].
    destruct (includes (suppliers page) supplierId) eqn:Hlisted; simpl; [|done].
    by apply handleSupplierSelect_invariant.
  - destruct (showProgress (panel page)) eqn:Hshow; simpl; [done|].
    destruct (includes (marketplaces page) marketplaceId); simpl; [|done].
    destruct Hinv as (Hnodup & Hsub & Hrun). unfold invariant. simpl.
    rewrite Hshow. by split_and!.
  - destruct Hinv as (Hnodup & Hsub & Hrun). unfold invariant, ControlPanel.step.
    destruct (showProgress (panel page)) eqn:Hshow.
    + destruct ev; simpl; rewrite ?Hshow; try (split_and!; done);
        unfold onComplete; cbv zeta;
        destruct (progressType (panel page)),
          (auto_mode_enabled (automationSettings (panel page)));
        simpl; split_and!; done.
    + destruct ev as [| |ids| | |]; simpl; rewrite ?Hshow;
        try (split_and!; done).
      * unfold handleLoadPrices.
        destruct (selectedSuppliers (panel page)) as [|id rest] eqn:Hsel; simpl;
          rewrite ?Hsel, ?Hshow; split_and!; try done.
        all: by rewrite <- ?Hsel.
      * unfold handleUploadPrices.
        destruct (selectedSuppliers (panel page)) as [|id rest] eqn:Hsel; simpl;
          rewrite ?Hsel, ?Hshow; split_and!; try done.
        all: by rewrite <- ?Hsel.
      * destruct (showPriceUpdateModal (panel page) && modal_in_upload_mode (panel page));
          simpl; rewrite ?Hshow; split_and!; done.
Qed.

(** X19: whatever the user does on the control panel, the selected
    suppliers are listed suppliers, each selected once, and a download run
    that is on screen has at least one supplier to load and no
    marketplace. *)
Theorem download_run_has_suppliers (suppliers marketplaces : list string)
    (settings : AutomationSettings) (evs : list Event) :
  let page := foldl step (initial suppliers marketplaces settings) evs in
  NoDup (selectedSuppliers (panel page)) ∧
  (∀ id, In id (selectedSuppliers (panel page)) → In id suppliers) ∧
  (showProgress (panel page) = true →
   progressType (panel page) = LoadingProgress.download →
   run_suppliers page ≠ [] ∧ run_marketplaces page = []).
Proof.
  cbv zeta.
  assert (Hinv : invariant (foldl step (initial suppliers marketplaces settings) evs)
                 ∧ ControlPanelSelection.suppliers
                     (foldl step (initial suppliers marketplaces settings) evs)
                   = suppliers).
  { assert (H0 : invariant (initial suppliers marketplaces settings)
                 ∧ ControlPanelSelection.suppliers
                     (initial suppliers marketplaces settings) = suppliers).
    { split; [|done]. split_and!; simpl; [constructor|done|done]. }
    revert H0. generalize (initial suppliers marketplaces settings).
    induction evs as [|ev evs IH]; intros page [Hpage Hsup]; simpl; [done|].
    apply IH. split; [by apply step_keeps_invariant|].
    rewrite <- Hsup. destruct ev; unfold step; cbv zeta; by repeat case_match. }
  destruct Hinv as [(Hnodup & Hsub & Hrun) Hsup].
  set (page := foldl step _ evs) in *.
  split_and!; [done|by rewrite <- Hsup|].
  intros Hshow Hdownload. unfold run_suppliers, run_marketplaces.
  rewrite Hdownload. split; [|done].
  destruct (selectedSuppliers (panel page)) as [|id rest] eqn:Hsel;
    [by destruct (Hrun Hshow Hdownload)|].
  assert (Hin : In id (List.filter (includes (id :: rest))
                         (ControlPanelSelection.suppliers page))).
  { apply filter_In. split.
    - apply Hsub. by left.
    - apply includes_In. by left. }
  intros Hnil. by rewrite Hnil in Hin.
Qed.

(** X20: checking the box of a supplier that is not selected and unchecking
    it again leaves the selection as it was, and nothing else of the panel
    changes. *)
Theorem handleSupplierSelect_round_trip (supplierId : string) (st : State)
    (Hnew : ¬ In supplierId (selectedSuppliers st)) :
  handleSupplierSelect supplierId false (handleSupplierSelect supplierId true st)
  = st.
Proof.
  destruct st as [sel mps settings show type modal ts].
  unfold handleSupplierSelect, setSelectedSuppliers. simpl in *. f_equal.
  induction sel as [|id sel IH]; simpl.
  - by rewrite String.eqb_refl.
  - destruct (String.eqb_spec id supplierId) as [->|Hne]; simpl.
    + destruct Hnew. by left.
    + f_equal. apply IH. intros Hin. apply Hnew. by right.
Qed.

Lemma handleSupplierSelect_round_trip_witness :
  let st := mkState ["s1"] [] (mkAutomationSettings false 60) false
              LoadingProgress.download false [] in
  handleSupplierSelect "s2" false (handleSupplierSelect "s2" true st) = st.
Proof.
  apply (handleSupplierSelect_round_trip "s2"
           (mkState ["s1"] [] (mkAutomationSettings false 60) false
              LoadingProgress.download false [])).
  simpl. intros [H|[]]. discriminate H.
Defined.

End PanelSelection.

(** ** The lines of the CSV export *)

Section CsvLines.
Import KaspiPriceListDialog Text.
Local Open Scope nat_scope.

Lemma count_app (c : ascii) (s t : string) :
  count c (s ++ t) = count c s + count c t.
Proof. induction s as [|a s IH]; simpl; [done|]. rewrite IH. lia. Qed.

Lemma lines_from_length (current text : string) :
  length (lines_from current text) = S (count "010"%char text).
Proof.
  revert current. induction text as [|a text IH]; intros current; simpl; [done|].
  destruct (Ascii.eqb a "010"); simpl; by rewrite IH.
Qed.

Lemma count_concat_newline (l : string) (ls : list string) :
  count "010"%char (String.concat newline (l :: ls))
  = length ls + sum_list (map (count "010"%char) (l :: ls)).
Proof.
  revert l. induction ls as [|l' ls IH]; intros l.
  - simpl. lia.
  - change (String.concat newline (l :: l' :: ls))
      with (l ++ newline ++ String.concat newline (l' :: ls)).
    rewrite !count_app, IH. simpl. lia.
Qed.

Lemma rev_app_rev_app (s a b : string) :
  String.rev_app (String.rev_app s a) b = String.rev_app a (s ++ b).
Proof.
  revert a. induction s as [|c s IH]; intros a; simpl; [done|].
  by rewrite IH.
Qed.

Lemma append_empty_r (s : string) : s ++ "" = s.
Proof. induction s as [|c s IH]; [done|]. exact (f_equal (String c) IH). Qed.

Lemma append_assoc (a b c : string) : (a ++ b) ++ c = a ++ b ++ c.
Proof. induction a as [|x a IH]; [done|]. exact (f_equal (String x) IH). Qed.

Lemma lines_from_app (current s text : string) :
  count "010"%char s = 0 →
  lines_from current (s ++ text) = lines_from (String.rev_app s current) text.
Proof.
  revert current. induction s as [|c s IH]; intros current Hs; simpl; [done|].
  simpl in Hs. destruct (Ascii.eqb c "010"); [done|]. by apply IH.
Qed.

Lemma lines_concat_newline (l : string) (ls : list string) :
  Forall (λ l, count "010"%char l = 0) (l :: ls) →
  lines (String.concat newline (l :: ls)) = l :: ls.
Proof.
  unfold lines. revert l. induction ls as [|l' ls IH]; intros l Hall.
  - simpl. rewrite <- (append_empty_r l) at 1.
    rewrite lines_from_app by (by inversion Hall). simpl.
    unfold String.rev. by rewrite rev_app_rev_app, append_empty_r.
  - change (String.concat newline (l :: l' :: ls))
      with (l ++ newline ++ String.concat newline (l' :: ls)).
    rewrite lines_from_app by (by inversion Hall). simpl.
    unfold String.rev at 1. rewrite rev_app_rev_app, append_empty_r. simpl.
    f_equal. apply IH. by inversion Hall.
Qed.

Lemma bom_concat (l : string) (ls : list string) :
  bom ++ String.concat newline (l :: ls) = String.concat newline ((bom ++ l) :: ls).
Proof. by destruct ls. Qed.

Section Format.
Context `{format : NumberFormat}.

(** The newlines in the four fields of a product as they are exported. *)
Let newlines_in (p : KaspiProduct) : nat :=
  count "010"%char (name p) + count "010"%char (kaspiArticle p)
  + count "010"%char (supplierArticle p) + count "010"%char (toString (price p)).

Lemma count_row (p : KaspiProduct) :
  count "010"%char
    (String.concat ";"
       [quote ++ name p ++ quote; kaspiArticle p; supplierArticle p;
        toString (price p)])
  = newlines_in p.
Proof.
  unfold newlines_in. cbn [String.concat]. rewrite !count_app. simpl. lia.
Qed.

(** X21: the exported file has one line for the header and one for each
    product, plus one for every newline character in an exported field:
    fields are written as they are, so a newline in a name or an article
    splits the row of its product. *)
Theorem handleExportToFile_line_count (p : KaspiProduct)
    (products : list KaspiProduct) :
  ∃ content,
    handleExportToFile (p :: products) = Some content ∧
    length (lines content)
    = S (length (p :: products))
      + sum_list
          (map (λ p, count "010"%char (name p) + count "010"%char (kaspiArticle p)
                     + count "010"%char (supplierArticle p)
                     + count "010"%char (toString (price p)))
             (p :: products)).
Proof.
  eexists. split; [reflexivity|].
  unfold lines. rewrite lines_from_length. unfold csvContent.
  rewrite bom_concat, count_concat_newline, length_map.
  rewrite (map_cons (count "010"%char)), map_map, (map_ext _ _ count_row).
  unfold newlines_in.
  change (sum_list (?a :: ?l)) with (a + sum_list l).
  rewrite count_app.
  change (count "010"%char bom) with 0.
  change (count "010"%char (String.concat ";" headers)) with 0.
  lia.
Qed.

(** X22: when no exported field holds a newline character, the lines of the
    file are the header, behind the byte order mark (the three bytes 239 187
    191 that encode U+FEFF), and then the rows of the products in their
    order: the name between two double quotes (character 34), the two
    articles and the price, separated by semicolons. *)
Theorem handleExportToFile_lines (p : KaspiProduct) (products : list KaspiProduct)
    (Hfields : Forall (λ p, count "010"%char (name p) = 0 ∧
                            count "010"%char (kaspiArticle p) = 0 ∧
                            count "010"%char (supplierArticle p) = 0 ∧
                            count "010"%char (toString (price p)) = 0)
                 (p :: products)) :
  ∃ content,
    handleExportToFile (p :: products) = Some content ∧
    lines content
    = String "239"%char (String "187"%char (String "191"%char
        "Наименование товара;Артикул Каспи;Артикул поставщика;Цена"))
      :: map (λ p, String "034"%char
                     (name p
                      ++ String "034"%char
                           (";" ++ kaspiArticle p ++ ";" ++ supplierArticle p
                            ++ ";" ++ toString (price p))))
           (p :: products).
Proof.
  eexists. split; [reflexivity|].
  unfold csvContent. rewrite bom_concat, lines_concat_newline.
  - f_equal. apply map_ext. intros q. cbn [String.concat].
    rewrite !append_assoc. reflexivity.
  - constructor; [done|].
    apply Forall_forall. intros row [q [<- Hq]]%list_elem_of_In%in_map_iff.
    rewrite count_row. unfold newlines_in.
    rewrite Forall_forall in Hfields.
    destruct (Hfields q) as (-> & -> & -> & ->); [|done].
    by apply list_elem_of_In.
Qed.

End Format.

Lemma handleExportToFile_lines_witness :
  let products := [mkKaspiProduct "p1" "Phone" "K1" "S1" 50000;
                   mkKaspiProduct "p2" "Case" "K2" "S2" 700] in
  ∃ content,
    @handleExportToFile Scenario.decimal products = Some content ∧
    lines content
    = [String "239"%char (String "187"%char (String "191"%char
         "Наименование товара;Артикул Каспи;Артикул поставщика;Цена"));
       String "034"%char ("Phone" ++ String "034"%char ";K1;S1;50000");
       String "034"%char ("Case" ++ String "034"%char ";K2;S2;700")].
Proof.
  cbv zeta.
  destruct (@handleExportToFile_lines Scenario.decimal
              (mkKaspiProduct "p1" "Phone" "K1" "S1" 50000)
              [mkKaspiProduct "p2" "Case" "K2" "S2" 700])
    as (content & Hcontent & Hlines).
  - repeat constructor.
  - exists content. split; [exact Hcontent|]. rewrite Hlines. reflexivity.
Defined.

End CsvLines.
